(** * Aquaponics sensor server: a shallow embedding of the HTTP handlers

    The development follows the two server sources of the repository:
    the MongoDB-backed server (handlers at top level below) and the
    memory-only [server.js] (module [ServerJs]).  Language primitives the
    handlers call (Number, parseInt, Array.prototype.slice,
    String.prototype.replace, Date.prototype.toLocaleString) are modelled
    in the first part, after ECMA-262 / ECMA-402. *)

From Stdlib Require Import ZArith List String Ascii Lia Bool.
From Stdlib Require Import Floats.SpecFloat.
From stdpp Require Import gmap strings.
Import ListNotations.

#[local] Set Warnings "-register-all".
#[local] Open Scope string_scope.
#[local] Open Scope Z_scope.

(* ===================================================================== *)
(** ** Characters and decimal digits *)
(* ===================================================================== *)

Definition code (c : ascii) : Z := Z.of_N (N_of_ascii c).

Definition char (z : Z) : ascii := ascii_of_N (Z.to_N z).

(** [\d] of a regular expression, and DecimalDigit of the grammar. *)
Definition is_digit (c : ascii) : bool := (48 <=? code c) && (code c <=? 57).

Definition digit_char (d : Z) : ascii := char (48 + d).

(** Digits of a non-negative integer, most significant first; [fuel]
    bounds the number of digits produced. *)
Fixpoint dec_digits (fuel : nat) (n : Z) (acc : string) : string :=
  match fuel with
  | O => acc
  | S fuel' =>
      let acc' := String (digit_char (n mod 10)) acc in
      if n / 10 =? 0 then acc' else dec_digits fuel' (n / 10) acc'
  end.

(** Decimal rendering of an integer, as Number.prototype.toString gives
    for an integral value and as Intl gives for [year: 'numeric']. *)
Definition Z_to_string (n : Z) : string :=
  if n <? 0
  then String "-" (dec_digits (S (Z.to_nat (Z.log2 (- n)))) (- n) "")
  else dec_digits (S (Z.to_nat (Z.log2 n))) n "".

(** A field rendered with ['2-digit']. *)
Definition pad2 (n : Z) : string :=
  String (digit_char (n / 10 mod 10)) (String (digit_char (n mod 10)) "").

(** Four decimal digits, the [YYYY] of a timestamp. *)
Definition pad4 (n : Z) : string :=
  String (digit_char (n / 1000 mod 10)) (String (digit_char (n / 100 mod 10)) (pad2 n)).

(* ===================================================================== *)
(** ** Calendar arithmetic behind [Date] *)
(* ===================================================================== *)

Module Calendar.

Record civil := { year : Z; month : Z; day : Z }.

(** Proleptic Gregorian date of a day number counted from 1970-01-01. *)
Definition civil_from_days (z : Z) : civil :=
  let z := z + 719468 in
  let era := z / 146097 in
  let doe := z - era * 146097 in
  let yoe := (doe - doe / 1460 + doe / 36524 - doe / 146096) / 365 in
  let doy := doe - (365 * yoe + yoe / 4 - yoe / 100) in
  let mp := (5 * doy + 2) / 153 in
  let d := doy - (153 * mp + 2) / 5 + 1 in
  let m := if mp <? 10 then mp + 3 else mp - 9 in
  {| year := yoe + era * 400 + (if m <=? 2 then 1 else 0); month := m; day := d |}.

(** Day number of a Gregorian date: the inverse direction, used to say
    which instant a rendered date denotes. *)
Definition days_from_civil (c : civil) : Z :=
  let y := year c - (if month c <=? 2 then 1 else 0) in
  let era := y / 400 in
  let yoe := y - era * 400 in
  let mp := if month c <=? 2 then month c + 9 else month c - 3 in
  let doy := (153 * mp + 2) / 5 + day c - 1 in
  let doe := yoe * 365 + yoe / 4 - yoe / 100 + doy in
  era * 146097 + doe - 719468.

Definition is_leap (y : Z) : bool :=
  (y mod 4 =? 0) && (negb (y mod 100 =? 0) || (y mod 400 =? 0)).

Definition days_in_month (y m : Z) : Z :=
  if m =? 2 then (if is_leap y then 29 else 28)
  else if (m =? 4) || (m =? 6) || (m =? 9) || (m =? 11) then 30 else 31.

Definition valid_date (c : civil) : Prop :=
  1 <= month c <= 12 /\ 1 <= day c <= days_in_month (year c) (month c).

End Calendar.

(* ===================================================================== *)
(** ** [Date.prototype.toLocaleString] for the options the server passes *)
(* ===================================================================== *)

Module Intl.

(** How the engine resolves [hour12: false] for [en-US]: older editions
    of ECMA-402, and the engines that follow them, pick the cycle [h24]
    (midnight is shown as hour 24), newer ones [h23].  The source does
    not fix it, so it is a parameter of the environment. *)
Inductive hourCycle := h23 | h24.

(** The offset of the zone [Asia/Kolkata], in seconds; it has been
    +05:30 for every instant from the Unix epoch on. *)
Definition kolkata_offset : Z := 19800.

Record fields := { date : Calendar.civil; hour : Z; minute : Z; second : Z }.

(** Wall-clock fields of the instant [t] (milliseconds since the
    epoch) in [Asia/Kolkata]. *)
Definition wall_clock (t : Z) : fields :=
  let secs := t / 1000 + kolkata_offset in
  let sod := secs mod 86400 in
  {| date := Calendar.civil_from_days (secs / 86400);
     hour := sod / 3600; minute := sod mod 3600 / 60; second := sod mod 60 |}.

Definition shown_hour (hc : hourCycle) (h : Z) : Z :=
  match hc with
  | h23 => h
  | h24 => if h =? 0 then 24 else h
  end.

(** [toLocaleString('en-US', { timeZone: 'Asia/Kolkata', year: 'numeric',
    month: '2-digit', day: '2-digit', hour: '2-digit', minute: '2-digit',
    second: '2-digit', hour12: false })]: the [en-US] pattern is
    [MM/dd/y, HH:mm:ss]. *)
Definition toLocaleString (hc : hourCycle) (t : Z) : string :=
  let f := wall_clock t in
  pad2 (Calendar.month (date f)) ++ "/" ++ pad2 (Calendar.day (date f)) ++ "/"
    ++ Z_to_string (Calendar.year (date f)) ++ ", "
    ++ pad2 (shown_hour hc (hour f)) ++ ":" ++ pad2 (minute f) ++ ":" ++ pad2 (second f).

End Intl.

(* ===================================================================== *)
(** ** [String.prototype.replace] with the date pattern *)
(* ===================================================================== *)

(** Longest prefix of digits, and what follows it: the greedy [\d+]. *)
Fixpoint take_digits (s : string) : string * string :=
  match s with
  | String c s' =>
      if is_digit c then let (ds, rest) := take_digits s' in (String c ds, rest)
      else ("", s)
  | EmptyString => ("", "")
  end.

Definition expect_slash (s : string) : option string :=
  match s with
  | String "/" s' => Some s'
  | _ => None
  end.

(** A match of [/(\d+)\/(\d+)\/(\d+)/] starting at the head of [s]: the
    three groups and the text after the match.  Each [\d+] is greedy; a
    shorter run would be followed by a digit and never by the slash, so
    backtracking finds nothing the longest run does not. *)
Definition match_date_at (s : string) : option (string * string * string * string) :=
  let (g1, r1) := take_digits s in
  if (g1 =? "")%string then None else
  match expect_slash r1 with
  | None => None
  | Some r2 =>
      let (g2, r3) := take_digits r2 in
      if (g2 =? "")%string then None else
      match expect_slash r3 with
      | None => None
      | Some r4 =>
          let (g3, r5) := take_digits r4 in
          if (g3 =? "")%string then None else Some (g1, g2, g3, r5)
      end
  end.

(** [s.replace(/(\d+)\/(\d+)\/(\d+)/, '$3-$1-$2')]: the leftmost match is
    rewritten, the text around it is kept, and a string without a match
    is returned as it is. *)
Fixpoint replace_date (s : string) : string :=
  match match_date_at s with
  | Some (g1, g2, g3, rest) => g3 ++ "-" ++ g1 ++ "-" ++ g2 ++ rest
  | None =>
      match s with
      | String c s' => String c (replace_date s')
      | EmptyString => ""
      end
  end.

(** [getISTDateTime] with the clock reading [t] of [new Date()]. *)
Definition getISTDateTime (hc : Intl.hourCycle) (t : Z) : string :=
  replace_date (Intl.toLocaleString hc t).

(* ===================================================================== *)
(** ** Number values and the conversions [Number(v)] and [parseInt] *)
(* ===================================================================== *)

(** A Number is an IEEE 754 binary64 value. *)
Definition number : Type := spec_float.

Definition NaN : number := S754_nan.

Definition is_NaN (x : number) : bool :=
  match x with S754_nan => true | _ => false end.

(** The Number nearest to [m * 2 ^ e], ties to even. *)
Definition round_binary (neg : bool) (m e : Z) : number :=
  binary_normalize 53 1024 (if neg then - m else m) e neg.

(** The Number nearest to the decimal [m * 10 ^ e] with [0 <= m], signed
    by [neg].  For a negative exponent the quotient is taken with more
    than 53 significant bits and one sticky bit for the remainder, so a
    single rounding decides. *)
Definition round_decimal (neg : bool) (m e : Z) : number :=
  if m =? 0 then S754_zero neg
  else if 0 <=? e then round_binary neg (m * 10 ^ e) 0
  else
    let d := 10 ^ (- e) in
    let k := Z.max 0 (Z.log2 d - Z.log2 m + 64) in
    let q := (m * 2 ^ k) / d in
    let r := (m * 2 ^ k) mod d in
    round_binary neg (2 * q + (if r =? 0 then 0 else 1)) (- (k + 1)).

(** WhiteSpace and LineTerminator among the code units 0..255, the range
    of characters a [string] of this development holds. *)
Definition is_whitespace (c : ascii) : bool :=
  let n := code c in
  ((9 <=? n) && (n <=? 13)) || (n =? 32) || (n =? 160).

Fixpoint trim_start (s : string) : string :=
  match s with
  | String c s' => if is_whitespace c then trim_start s' else s
  | EmptyString => ""
  end.

Fixpoint trim_end (s : string) : string :=
  match s with
  | String c s' =>
      match trim_end s' with
      | EmptyString => if is_whitespace c then "" else String c ""
      | t => String c t
      end
  | EmptyString => ""
  end.

(** Value of a character as a digit in radix [R], if it is one. *)
Definition digit_value (R : Z) (c : ascii) : option Z :=
  let n := code c in
  let v := if (48 <=? n) && (n <=? 57) then n - 48
           else if (97 <=? n) && (n <=? 122) then n - 87
           else if (65 <=? n) && (n <=? 90) then n - 55
           else 36 in
  if v <? R then Some v else None.

(** Longest prefix of radix-[R] digits read as an integer, continuing
    from [acc]; with the number of digits read and the rest. *)
Fixpoint read_digits (R : Z) (s : string) (acc : Z) (count : Z) : Z * Z * string :=
  match s with
  | String c s' =>
      match digit_value R c with
      | Some v => read_digits R s' (acc * R + v) (count + 1)
      | None => (acc, count, s)
      end
  | EmptyString => (acc, count, "")
  end.

(** ExponentPart: absent ([Some 0] and the text unchanged), well formed,
    or malformed ([None]). *)
Definition read_exponent (s : string) : option (Z * string) :=
  match s with
  | String c s' =>
      if (code c =? 101) || (code c =? 69) then
        let (neg, s'') :=
          match s' with
          | String "-" r => (true, r)
          | String "+" r => (false, r)
          | _ => (false, s')
          end in
        let '(v, n, rest) := read_digits 10 s'' 0 0 in
        if n =? 0 then None else Some (if neg then - v else v, rest)
      else Some (0, s)
  | EmptyString => Some (0, "")
  end.

(** StrUnsignedDecimalLiteral other than [Infinity], as the pair of a
    decimal mantissa and a power of ten; the whole string must match. *)
Definition read_unsigned_decimal (s : string) : option (Z * Z) :=
  let '(i, ni, r1) := read_digits 10 s 0 0 in
  let '(m, nf, r2) :=
    match r1 with
    | String "." r => read_digits 10 r i 0
    | _ => (i, 0, r1)
    end in
  if (ni =? 0) && (nf =? 0) then None else
  match read_exponent r2 with
  | Some (e, EmptyString) => Some (m, e - nf)
  | _ => None
  end.

(** NonDecimalIntegerLiteral: [0x], [0o] or [0b] and at least one digit
    of that radix, nothing after. *)
Definition read_non_decimal (s : string) : option Z :=
  match s with
  | String "0" (String p r) =>
      let R := if (code p =? 120) || (code p =? 88) then 16
               else if (code p =? 111) || (code p =? 79) then 8
               else if (code p =? 98) || (code p =? 66) then 2
               else 0 in
      match read_digits R r 0 0 with
      | (v, n, EmptyString) => if (R =? 0) || (n =? 0) then None else Some v
      | _ => None
      end
  | _ => None
  end.

(** StringToNumber (ECMA-262 7.1.4.1.1): white space around the literal
    is dropped, the empty string is [+0], a string outside the grammar
    StringNumericLiteral is [NaN]. *)
Definition StringToNumber (s : string) : number :=
  let t := trim_end (trim_start s) in
  if (t =? "")%string then S754_zero false else
  match read_non_decimal t with
  | Some v => round_binary false v 0
  | None =>
      let (neg, u) :=
        match t with
        | String "-" r => (true, r)
        | String "+" r => (false, r)
        | _ => (false, t)
        end in
      if (u =? "Infinity")%string then S754_infinity neg else
      match read_unsigned_decimal u with
      | Some (m, e) => round_decimal neg m e
      | None => NaN
      end
  end.

(** How the evaluation of an expression or a call ends: with a value, or
    with an exception thrown. *)
Inductive completion (A : Type) :=
  | Normal (a : A)
  | Throw (message : string).
Arguments Normal {A} a.
Arguments Throw {A} message.

(** ECMAScript values a parsed JSON body holds; [VUndefined] is what
    reading an absent property yields. *)
Inductive jsval :=
  | VUndefined
  | VNull
  | VBool (b : bool)
  | VNum (x : number)
  | VStr (s : string)
  | VArr (l : list jsval)
  | VObj (o : gmap string jsval).

(** Whether converting the value to a primitive throws a TypeError.  An
    object of a JSON body has data properties only, so an own [toString]
    is not callable: OrdinaryToPrimitive skips it, [valueOf] (inherited,
    or own and skipped too) gives no primitive, and the conversion
    throws.  An array is converted by [join], which converts every
    element in turn. *)
Fixpoint raises_TypeError (v : jsval) : bool :=
  match v with
  | VObj o => match o !! "toString" with Some _ => true | None => false end
  | VArr l => existsb raises_TypeError l
  | _ => false
  end.

(** [StringToNumber] of the text an array element contributes to
    [Array.prototype.join], for an element whose conversion does not
    throw: [undefined] and [null] give the empty string, a Number prints
    so that it reads back as itself (negative zero prints as [0]), a
    nested array is joined in turn, [true], [false] and
    [[object Object]] are no numerals, and neither is any text with the
    separating comma of two or more elements. *)
Fixpoint joined_to_number (v : jsval) : number :=
  match v with
  | VUndefined | VNull => S754_zero false
  | VBool _ => NaN
  | VNum (S754_zero _) => S754_zero false
  | VNum x => x
  | VStr s => StringToNumber s
  | VArr [] => S754_zero false
  | VArr [x] => joined_to_number x
  | VArr _ => NaN
  | VObj _ => NaN
  end.

(** [Number(v)], that is ToNumber: objects and arrays go through
    ToPrimitive, which calls their [toString] and may throw. *)
Definition Number (v : jsval) : completion number :=
  if raises_TypeError v then Throw "TypeError" else
  Normal match v with
         | VUndefined => NaN
         | VNull => S754_zero false
         | VBool b => if b then round_binary false 1 0 else S754_zero false
         | VNum x => x
         | VStr s => StringToNumber s
         | VArr _ => joined_to_number v
         | VObj _ => NaN
         end.

(** Values of [req.query] as the query-string parser of Express builds
    them; it keeps keys such as [toString] (option [allowPrototypes]). *)
Inductive qsval :=
  | QUndefined
  | QStr (s : string)
  | QArr (l : list qsval)
  | QObj (o : list (string * qsval)).

(** Whether ToString of a query value throws a TypeError: an object with
    an own [toString], which is a string or an object and never
    callable, or an array with such an element. *)
Fixpoint qs_raises_TypeError (v : qsval) : bool :=
  match v with
  | QObj o => existsb (fun kv => (fst kv =? "toString")%string) o
  | QArr l => existsb qs_raises_TypeError l
  | _ => false
  end.

(** The text of a query value whose conversion does not throw; an array
    joins its elements with commas, an [undefined] element giving the
    empty string. *)
Fixpoint qs_text (v : qsval) : string :=
  match v with
  | QUndefined => "undefined"
  | QStr s => s
  | QArr l =>
      (fix join (l : list qsval) : string :=
         let item x := match x with QUndefined => "" | _ => qs_text x end in
         match l with
         | [] => ""
         | [x] => item x
         | x :: l' => item x ++ "," ++ join l'
         end) l
  | QObj _ => "[object Object]"
  end.

(** ToString on query values. *)
Definition qs_ToString (v : qsval) : completion string :=
  if qs_raises_TypeError v then Throw "TypeError" else Normal (qs_text v).

(** The mathematical integer [parseInt(string, radix)] reads (ECMA-262
    19.2.5, up to the step that names it [mathInt], sign applied) from
    the string already converted; [R] is ToInt32 of the radix, 0 when it
    is omitted.  [None] is the case without a digit, where the result is
    NaN. *)
Definition parseInt_mathInt (s : string) (R : Z) : option Z :=
  let S := trim_start s in
  let (neg, S) :=
    match S with
    | String "-" r => (true, r)
    | String "+" r => (false, r)
    | _ => (false, S)
    end in
  if negb (R =? 0) && ((R <? 2) || (36 <? R)) then None else
  let stripPrefix := (R =? 0) || (R =? 16) in
  let R := if R =? 0 then 10 else R in
  let (R, S) :=
    match S with
    | String "0" (String p r) =>
        if stripPrefix && ((code p =? 120) || (code p =? 88)) then (16, r) else (R, S)
    | _ => (R, S)
    end in
  let '(v, n, _) := read_digits R S 0 0 in
  if n =? 0 then None else Some (if neg then - v else v).

(** An integral Number: a finite integer (the two zeros are not told
    apart), or an infinity. *)
Inductive integral :=
  | Finite (n : Z)
  | PosInfinity
  | NegInfinity.

(** The Number for the mathematical integer [n]: [n] itself below 2^53
    in absolute value, else [n] rounded to 53 significant bits, ties to
    even, and an infinity from 2^1024 on. *)
Definition Number_of_integer (n : Z) : integral :=
  let a := Z.abs n in
  if a <? 2 ^ 53 then Finite n
  else
    let e := Z.log2 a - 52 in
    let q := a / 2 ^ e in
    let r := a mod 2 ^ e in
    let q' := if 2 * r <? 2 ^ e then q
              else if 2 ^ e <? 2 * r then q + 1
              else if Z.even q then q else q + 1 in
    let v := q' * 2 ^ e in
    if 2 ^ 1024 <=? v then (if n <? 0 then NegInfinity else PosInfinity)
    else Finite (if n <? 0 then - v else v).

(** [parseInt(string, radix)] on the string already converted: NaN
    ([None]) or the Number for the integer read.  (Past the twentieth
    significant digit of a decimal numeral an engine is free to read
    zeros; the properties below that depend on the value read bound
    it.) *)
Definition parseInt (s : string) (R : Z) : option integral :=
  match parseInt_mathInt s R with
  | Some n => Some (Number_of_integer n)
  | None => None
  end.

(** [x || d] for the result [x] of [parseInt]: NaN and zero are falsy. *)
Definition or_default (x : option integral) (d : Z) : integral :=
  match x with
  | Some (Finite n) => if n =? 0 then Finite d else Finite n
  | Some i => i
  | None => Finite d
  end.

(** [Array.prototype.slice(start, end)]: a negative bound counts from the
    end of the array, and both are clamped to it. *)
Definition slice {A : Type} (l : list A) (start end_ : Z) : list A :=
  let len := Z.of_nat (length l) in
  let k := if start <? 0 then Z.max (len + start) 0 else Z.min start len in
  let final := if end_ <? 0 then Z.max (len + end_) 0 else Z.min end_ len in
  firstn (Z.to_nat (final - k)) (skipn (Z.to_nat k) l).

(** [slice(0, end)] for an end that may be infinite: plus infinity is
    clamped to the length, minus infinity to zero. *)
Definition slice_to {A : Type} (l : list A) (end_ : integral) : list A :=
  match end_ with
  | Finite n => slice l 0 n
  | PosInfinity => slice l 0 (Z.of_nat (length l))
  | NegInfinity => slice l 0 0
  end.

(* ===================================================================== *)
(** ** Data: readings, stored documents, the two stores *)
(* ===================================================================== *)

(** A reading as the handlers build and return it. *)
Module Reading.
Record t := mk {
  waterLevel : number;
  temperatureCelsius : number;
  temperatureFahrenheit : number;
  timestamp : string;
  id : string
}.
End Reading.

(** A document of the [SensorData] model ([sensorSchema]); [_id] is the
    ObjectId in its string form. *)
Module Doc.
Record t := mk {
  waterLevel : number;
  temperatureCelsius : number;
  temperatureFahrenheit : number;
  istTimestamp : string;
  _id : string
}.
End Doc.

(** The state the handlers act on: [localDataStore.sensorData], and the
    [SensorData] collection behind Mongoose, held in the order
    [sort({ createdAt: -1 })] reads it. *)
Record Store := {
  sensorData : list Reading.t;
  collection : list Doc.t
}.

(** The state every process starts in with a fresh database. *)
Definition initial_store : Store := {| sensorData := []; collection := [] |}.

(** What the surroundings of one request decide: the two clock readings
    ([new Date()] and [Date.now()], in milliseconds since the epoch), the
    engine's hour cycle, the state of the Mongoose connection, whether
    the promise the handler awaits is rejected (connection lost, write or
    read error, a value the schema refuses), the ObjectId a created
    document receives, and how many documents of the collection stay
    ahead of a created one when it is read by [createdAt], latest first:
    none when the clock that stamps [createdAt] has moved on since they
    were created. *)
Record Env := {
  hour_cycle : Intl.hourCycle;
  clock_Date : Z;
  clock_now : Z;
  readyState : Z;
  driver_rejects : bool;
  fresh_id : string;
  later_documents : nat
}.

(** The object a handler hands to [res.json], and the response with the
    status set by [res.status]. *)
Inductive Json :=
  | JMessage (success : bool) (message : string)
  | JStored (success : bool) (message : string) (latestData : Reading.t)
  | JList (success : bool) (data : list Reading.t)
  | JOne (success : bool) (data : Reading.t).

Record Response := { status : Z; json : Json }.

Definition success_of (r : Response) : bool :=
  match json r with
  | JMessage b _ | JStored b _ _ | JList b _ | JOne b _ => b
  end.

(* ===================================================================== *)
(** ** Computations: state, and exceptions caught by [try]/[catch] *)
(* ===================================================================== *)

(** A handler body: it runs on the store and ends with a value or with
    an exception.  An exception no [try] of the handler catches leaves
    the handler ([Throw] as the result): Express answers it with its own
    500 page for the synchronous handlers of [server.js]; for the
    [async] handlers of the MongoDB-backed server it rejects a promise
    nothing handles, and no response is sent. *)
Definition JS (A : Type) : Type := Store -> completion A * Store.

Definition ret {A} (a : A) : JS A := fun st => (Normal a, st).

Definition bind {A B} (c : JS A) (k : A -> JS B) : JS B :=
  fun st =>
    match c st with
    | (Normal a, st') => k a st'
    | (Throw e, st') => (Throw e, st')
    end.

Definition try_catch {A} (c : JS A) (handler : string -> JS A) : JS A :=
  fun st =>
    match c st with
    | (Normal a, st') => (Normal a, st')
    | (Throw e, st') => handler e st'
    end.

Definition gets {A} (f : Store -> A) : JS A := fun st => (Normal (f st), st).

Definition modify (f : Store -> Store) : JS unit := fun st => (Normal tt, f st).

(** The evaluation of an expression that does not touch the store. *)
Definition lift {A} (c : completion A) : JS A := fun st => (c, st).

Declare Scope js_scope.
Delimit Scope js_scope with js.
Notation "x <- c ;; k" := (bind c (fun x => k))
  (at level 100, c at next level, right associativity) : js_scope.
Notation "c ;;; k" := (bind c (fun _ => k))
  (at level 100, right associativity) : js_scope.
#[local] Open Scope js_scope.

(* ===================================================================== *)
(** ** The Mongoose model [SensorData] *)
(* ===================================================================== *)

(** [mongoose.connection.readyState === 1]. *)
Definition isDbConnected (env : Env) : bool := readyState env =? 1.

(** The list with [x] put in behind its first [k] elements, at the end
    when it has fewer. *)
Definition insert_at {A : Type} (k : nat) (x : A) (l : list A) : list A :=
  (firstn k l ++ x :: skipn k l)%list.

(** [SensorData.create({...})]: rejects when the driver does; otherwise
    the document holds the four values given, receives its [_id], and
    takes the place its [createdAt] gives it in the collection as
    [sort({ createdAt: -1 })] reads it. *)
Definition SensorData_create (env : Env) (w c f : number) (ist : string) : JS Doc.t :=
  fun st =>
    if driver_rejects env then (Throw "MongoError", st)
    else
      let doc := Doc.mk w c f ist (fresh_id env) in
      (Normal doc, {| sensorData := sensorData st;
                      collection := insert_at (later_documents env) doc (collection st) |}).

(** The first [n] documents as the server counts a cursor limit: a
    negative limit asks for that many in a single batch, zero for all. *)
Definition cursor_limit {A : Type} (n : Z) (l : list A) : list A :=
  if n =? 0 then l else firstn (Z.to_nat (Z.abs n)) l.

(** [SensorData.find().sort({ createdAt: -1 }).limit(limit).lean()]; a
    limit that is an infinity is no count of documents, and the query
    is rejected. *)
Definition SensorData_find (env : Env) (limit : integral) : JS (list Doc.t) :=
  fun st =>
    match limit with
    | Finite n =>
        if driver_rejects env then (Throw "MongoError", st)
        else (Normal (cursor_limit n (collection st)), st)
    | PosInfinity | NegInfinity => (Throw "MongoError", st)
    end.

(** [SensorData.findOne().sort({ createdAt: -1 }).lean()]: the newest
    document, or null. *)
Definition SensorData_findOne (env : Env) : JS (option Doc.t) :=
  fun st =>
    if driver_rejects env then (Throw "MongoError", st)
    else (Normal (head (collection st)), st).

(** The object literal both read handlers and the create handler build
    from a document. *)
Definition reading_of_doc (doc : Doc.t) : Reading.t :=
  Reading.mk (Doc.waterLevel doc) (Doc.temperatureCelsius doc)
             (Doc.temperatureFahrenheit doc) (Doc.istTimestamp doc) (Doc._id doc).

(* ===================================================================== *)
(** ** The local fallback store *)
(* ===================================================================== *)

(** [localDataStore.sensorData.unshift(entry)] followed by the cut to
    the first 100 entries when the length exceeds 100. *)
Definition store_locally (entry : Reading.t) : JS unit :=
  modify (fun st => {| sensorData := entry :: sensorData st; collection := collection st |}) ;;;
  len <- gets (fun st => Z.of_nat (length (sensorData st))) ;;
  if 100 <? len
  then modify (fun st => {| sensorData := slice (sensorData st) 0 100; collection := collection st |})
  else ret tt.

(* ===================================================================== *)
(** ** Request handlers of the MongoDB-backed server *)
(* ===================================================================== *)

(** Property read of the destructuring [const { ... } = req.body]. *)
Definition prop (body : gmap string jsval) (key : string) : jsval :=
  match body !! key with
  | Some v => v
  | None => VUndefined
  end.

(** [v === undefined || v === null]. *)
Definition is_missing (v : jsval) : bool :=
  match v with
  | VUndefined | VNull => true
  | _ => false
  end.

Definition missing_fields_message : string :=
  "Missing required fields: waterLevel, temperatureCelsius, or temperatureFahrenheit".

(** The [entry] object literal of the create handler, once its three
    [Number(...)] calls have returned: the timestamp and the id are read
    from the clock after them. *)
Definition make_entry (env : Env) (waterLevel temperatureCelsius temperatureFahrenheit : number)
  : Reading.t :=
  Reading.mk waterLevel temperatureCelsius temperatureFahrenheit
             (getISTDateTime (hour_cycle env) (clock_Date env))
             (Z_to_string (clock_now env)).

(** [app.post('/api/sensor-data', ...)].  The three [Number(...)] calls
    of the object literal stand before the first [try]: an exception of
    theirs leaves the handler.  A [return res...] inside the first [try]
    ends the handler; falling out of it is [None]. *)
Definition post_sensor_data (env : Env) (body : gmap string jsval) : JS Response :=
  let waterLevel := prop body "waterLevel" in
  let temperatureCelsius := prop body "temperatureCelsius" in
  let temperatureFahrenheit := prop body "temperatureFahrenheit" in
  if is_missing waterLevel || is_missing temperatureCelsius || is_missing temperatureFahrenheit
  then ret {| status := 400; json := JMessage false missing_fields_message |}
  else
    w <- lift (Number waterLevel) ;;
    c <- lift (Number temperatureCelsius) ;;
    f <- lift (Number temperatureFahrenheit) ;;
    let entry := make_entry env w c f in
    sent <-
      (if isDbConnected env then
         try_catch
           (doc <- SensorData_create env (Reading.waterLevel entry)
                     (Reading.temperatureCelsius entry)
                     (Reading.temperatureFahrenheit entry) (Reading.timestamp entry) ;;
            let newData := reading_of_doc doc in
            ret (Some {| status := 200;
                         json := JStored true "Data stored successfully (db)" newData |}))
           (fun error => ret None)
       else ret None) ;;
    match sent with
    | Some response => ret response
    | None =>
        try_catch
          (store_locally entry ;;;
           ret {| status := 200; json := JStored true "Data stored locally (fallback)" entry |})
          (fun error =>
             ret {| status := 500;
                    json := JMessage false
                              (if (error =? "")%string then "Error storing data" else error) |})
    end.

(** [parseInt(req.query.limit, 10) || 10]; [parseInt] converts its
    argument to a string first, which may throw. *)
Definition limit_of (q : qsval) : completion integral :=
  match qs_ToString q with
  | Normal s => Normal (or_default (parseInt s 10) 10)
  | Throw e => Throw e
  end.

(** [app.get('/api/sensor-data', ...)]; the limit is computed before
    the first [try]. *)
Definition get_sensor_data (env : Env) (query_limit : qsval) : JS Response :=
  limit <- lift (limit_of query_limit) ;;
  sent <-
    (if isDbConnected env then
       try_catch
         (docs <- SensorData_find env limit ;;
          let data := map reading_of_doc docs in
          ret (Some {| status := 200; json := JList true data |}))
         (fun error => ret None)
     else ret None) ;;
  match sent with
  | Some response => ret response
  | None =>
      try_catch
        (data <- gets (fun st => slice_to (sensorData st) limit) ;;
         ret {| status := 200; json := JList true data |})
        (fun error => ret {| status := 500; json := JMessage false "Error retrieving data" |})
  end.

(** [app.get('/api/sensor-data/latest', ...)]. *)
Definition get_sensor_data_latest (env : Env) : JS Response :=
  sent <-
    (if isDbConnected env then
       try_catch
         (found <- SensorData_findOne env ;;
          match found with
          | Some doc => ret (Some {| status := 200; json := JOne true (reading_of_doc doc) |})
          | None => ret None
          end)
         (fun error => ret None)
     else ret None) ;;
  match sent with
  | Some response => ret response
  | None =>
      local <- gets sensorData ;;
      match local with
      | first :: _ => ret {| status := 200; json := JOne true first |}
      | [] => ret {| status := 404; json := JMessage false "No data available" |}
      end
  end.

(* ===================================================================== *)
(** ** Request handlers of the memory-only [server.js] *)
(* ===================================================================== *)

Module ServerJs.

(** [app.post('/api/sensor-data', ...)]; the object literal [newData]
    with its [Number(...)] calls stands before the [try]. *)
Definition post_sensor_data (env : Env) (body : gmap string jsval) : JS Response :=
  let waterLevel := prop body "waterLevel" in
  let temperatureCelsius := prop body "temperatureCelsius" in
  let temperatureFahrenheit := prop body "temperatureFahrenheit" in
  if is_missing waterLevel || is_missing temperatureCelsius || is_missing temperatureFahrenheit
  then ret {| status := 400; json := JMessage false missing_fields_message |}
  else
    w <- lift (Number waterLevel) ;;
    c <- lift (Number temperatureCelsius) ;;
    f <- lift (Number temperatureFahrenheit) ;;
    let newData := make_entry env w c f in
    try_catch
      (store_locally newData ;;;
       ret {| status := 200; json := JStored true "Data stored successfully" newData |})
      (fun error => ret {| status := 500; json := JMessage false error |}).

(** [parseInt(req.query.limit) || 10]: no radix is passed here. *)
Definition limit_of (q : qsval) : completion integral :=
  match qs_ToString q with
  | Normal s => Normal (or_default (parseInt s 0) 10)
  | Throw e => Throw e
  end.

(** [app.get('/api/sensor-data', ...)]; the limit is computed before
    the [try]. *)
Definition get_sensor_data (query_limit : qsval) : JS Response :=
  limit <- lift (limit_of query_limit) ;;
  try_catch
    (data <- gets (fun st => slice_to (sensorData st) limit) ;;
     ret {| status := 200; json := JList true data |})
    (fun error => ret {| status := 500; json := JMessage false "Error retrieving data" |}).

(** [app.get('/api/sensor-data/latest', ...)]. *)
Definition get_sensor_data_latest : JS Response :=
  try_catch
    (local <- gets sensorData ;;
     match local with
     | first :: _ => ret {| status := 200; json := JOne true first |}
     | [] => ret {| status := 404; json := JMessage false "No data available" |}
     end)
    (fun error => ret {| status := 500; json := JMessage false "Error retrieving data" |}).

End ServerJs.

(* ===================================================================== *)
(** ** Sessions: requests handled one after the other *)
(* ===================================================================== *)

(** A create request with what its surroundings decide. *)
Definition create_request : Type := Env * gmap string jsval.

(** The create requests of a session in order, each handler running to
    its response before the next starts; the responses are collected.
    The run ends with the exception of the first handler that throws. *)
Fixpoint run_creates (reqs : list create_request) : JS (list Response) :=
  match reqs with
  | [] => ret []
  | (env, body) :: reqs' =>
      r <- post_sensor_data env body ;;
      rs <- run_creates reqs' ;;
      ret (r :: rs)
  end.

(** The store after the [unshift]-and-cut of each reading in turn. *)
Definition insert (entry : Reading.t) (st : Store) : Store := snd (store_locally entry st).

Definition insert_all (entries : list Reading.t) (st : Store) : Store :=
  fold_left (fun st e => insert e st) entries st.

(* ===================================================================== *)
(** ** Vocabulary of the specification *)
(* ===================================================================== *)

Fixpoint all_digits (s : string) : bool :=
  match s with
  | String c s' => is_digit c && all_digits s'
  | EmptyString => true
  end.

Definition starts_without_digit (s : string) : bool :=
  match s with
  | String c _ => negb (is_digit c)
  | EmptyString => true
  end.

(** The timestamp the specification describes, [YYYY-MM-DD HH:MM:SS]:
    date, one space, time. *)
Definition specified_timestamp (f : Intl.fields) : string :=
  pad4 (Calendar.year (Intl.date f)) ++ "-" ++ pad2 (Calendar.month (Intl.date f)) ++ "-"
    ++ pad2 (Calendar.day (Intl.date f)) ++ " "
    ++ pad2 (Intl.hour f) ++ ":" ++ pad2 (Intl.minute f) ++ ":" ++ pad2 (Intl.second f).

(** Whether a string has the shape [dddd-dd-dd dd:dd:dd] and nothing else. *)
Definition has_specified_shape (s : string) : bool :=
  match s with
  | String y1 (String y2 (String y3 (String y4 (String "-" (String m1 (String m2
      (String "-" (String d1 (String d2 (String " " (String h1 (String h2
      (String ":" (String i1 (String i2 (String ":" (String s1 (String s2 ""))))))))))))))))))
    => forallb is_digit [y1; y2; y3; y4; m1; m2; d1; d2; h1; h2; i1; i2; s1; s2]
  | _ => false
  end.

(** The timestamp the code produces: the separator the locale puts
    between date and time is a comma and a space, and the hour is shown
    in the engine's hour cycle. *)
Definition rendered_timestamp (hc : Intl.hourCycle) (f : Intl.fields) : string :=
  pad4 (Calendar.year (Intl.date f)) ++ "-" ++ pad2 (Calendar.month (Intl.date f)) ++ "-"
    ++ pad2 (Calendar.day (Intl.date f)) ++ ", "
    ++ pad2 (Intl.shown_hour hc (Intl.hour f)) ++ ":" ++ pad2 (Intl.minute f) ++ ":"
    ++ pad2 (Intl.second f).

(** The instant a wall-clock reading denotes, in seconds of local time
    since 1970-01-01 00:00:00. *)
Definition local_seconds (f : Intl.fields) : Z :=
  Calendar.days_from_civil (Intl.date f) * 86400
    + Intl.hour f * 3600 + Intl.minute f * 60 + Intl.second f.

(** First instant (in milliseconds) whose year in [Asia/Kolkata] has five
    digits: 10000-01-01 00:00:00 +05:30. *)
Definition year_10000 : Z := 253402281000000.

(** All three required fields of a body are there: none is [undefined]
    (absent) or [null]. *)
Definition fields_present (body : gmap string jsval) : bool :=
  negb (is_missing (prop body "waterLevel") || is_missing (prop body "temperatureCelsius")
        || is_missing (prop body "temperatureFahrenheit")).

(** A required field is missing from a body, or null. *)
Definition missing_or_null (body : gmap string jsval) (key : string) : Prop :=
  body !! key = None \/ body !! key = Some VNull \/ body !! key = Some VUndefined.

(** One of the three required fields is missing from a body, or null. *)
Definition some_field_missing (body : gmap string jsval) : Prop :=
  missing_or_null body "waterLevel" \/ missing_or_null body "temperatureCelsius"
  \/ missing_or_null body "temperatureFahrenheit".

(** The conversion of one of the three fields of a body throws. *)
Definition conversion_throws (body : gmap string jsval) : bool :=
  raises_TypeError (prop body "waterLevel")
  || raises_TypeError (prop body "temperatureCelsius")
  || raises_TypeError (prop body "temperatureFahrenheit").

(** The reading a create request is stamped with: there is none when a
    conversion of a field throws. *)
Definition entry_of (env : Env) (body : gmap string jsval) : option Reading.t :=
  match Number (prop body "waterLevel"), Number (prop body "temperatureCelsius"),
        Number (prop body "temperatureFahrenheit") with
  | Normal w, Normal c, Normal f => Some (make_entry env w c f)
  | _, _, _ => None
  end.

(** The document the durable store makes of a stamped reading. *)
Definition doc_of (env : Env) (entry : Reading.t) : Doc.t :=
  Doc.mk (Reading.waterLevel entry) (Reading.temperatureCelsius entry)
         (Reading.temperatureFahrenheit entry) (Reading.timestamp entry) (fresh_id env).

(** The durable store answers the operation of this request: the
    connection is ready and the driver does not reject. *)
Definition durable_answers (env : Env) : bool :=
  isDbConnected env && negb (driver_rejects env).

(** The limit the specification describes for a query value given as
    text: the integer it denotes, and 10 when it is not a number or not
    positive. *)
Definition specified_limit (s : string) : Z :=
  match parseInt_mathInt s 10 with
  | Some n => if 0 <? n then n else 10
  | None => 10
  end.

(** The limit of a list request is read as [n], an integer the Number
    holds exactly and the database takes as a count. *)
Definition database_limit (q : qsval) (n : Z) : Prop :=
  limit_of q = Normal (Finite n) /\ Z.abs n < 2 ^ 53.

(** A limit that is positive. *)
Definition positive_limit (limit : integral) : bool :=
  match limit with
  | Finite n => 0 <? n
  | PosInfinity => true
  | NegInfinity => false
  end.

(** A create request that is valid and handled while the database is
    not reachable, with the reading it is stamped with. *)
Definition offline_and_valid (r : create_request) (e : Reading.t) : Prop :=
  isDbConnected (fst r) = false /\ fields_present (snd r) = true
  /\ entry_of (fst r) (snd r) = Some e.

(** The answer to a create request that went to the local buffer. *)
Definition stored_locally_response (e : Reading.t) : Response :=
  {| status := 200; json := JStored true "Data stored locally (fallback)" e |}.

(** *** Sample requests *)

(** A body with the three fields given. *)
Definition body_of (w c f : jsval) : gmap string jsval :=
  <["waterLevel" := w]> (<["temperatureCelsius" := c]> (<["temperatureFahrenheit" := f]> ∅)).

(** The body of the documented [curl] call. *)
Definition sample_body : gmap string jsval :=
  body_of (VNum (StringToNumber "12.5")) (VNum (StringToNumber "28.3"))
          (VNum (StringToNumber "82.9")).


(** Surroundings of a request at clock reading [t] with the database not
    connected. *)
Definition offline_env (t : Z) : Env :=
  {| hour_cycle := Intl.h23; clock_Date := t; clock_now := t;
     readyState := 0; driver_rejects := false; fresh_id := ""; later_documents := 0 |}.

(** Connected, and the driver rejects the operation. *)
Definition failing_env (t : Z) : Env :=
  {| hour_cycle := Intl.h23; clock_Date := t; clock_now := t;
     readyState := 1; driver_rejects := true; fresh_id := ""; later_documents := 0 |}.

(** Connected, and the operation succeeds; a created document gets [oid]
    and is the latest of the collection. *)
Definition live_env (t : Z) (oid : string) : Env :=
  {| hour_cycle := Intl.h23; clock_Date := t; clock_now := t;
     readyState := 1; driver_rejects := false; fresh_id := oid; later_documents := 0 |}.

(** 2025-11-03 00:30:00 in [Asia/Kolkata]. *)
Definition sample_instant : Z := 1762110000000.

(** [n] create requests, one second apart, with the database not
    connected. *)
Definition sample_requests (n : nat) : list create_request :=
  map (fun i => (offline_env (sample_instant + 1000 * Z.of_nat i), sample_body)) (seq 0 n).

(** The reading the sample body is stamped with at clock reading [t]. *)
Definition sample_entry (t : Z) : Reading.t :=
  make_entry (offline_env t) (StringToNumber "12.5") (StringToNumber "28.3")
             (StringToNumber "82.9").

(** A document of the collection: the sample body created at one
    second past the epoch. *)
Definition sample_doc : Doc.t :=
  Doc.mk (StringToNumber "12.5") (StringToNumber "28.3") (StringToNumber "82.9")
         "1970-01-01, 05:30:01" "65a1".

(** The readings the sample requests are stamped with, in order of
    creation. *)
Definition sample_entries (n : nat) : list Reading.t :=
  map (fun i => sample_entry (sample_instant + 1000 * Z.of_nat i)) (seq 0 n).

(** A session: the creates in order, then one list request. *)
Definition creates_then_list (reqs : list create_request) (env : Env) (q : qsval)
  : JS Response :=
  (run_creates reqs ;;; get_sensor_data env q)%js.

(** *** Requests of any kind *)

(** A request to one of the three routes of the API, with what its
    surroundings decide. *)
Inductive request :=
  | PostSensorData (env : Env) (body : gmap string jsval)
  | GetSensorData (env : Env) (limit : qsval)
  | GetLatest (env : Env).

(** The handler the route of a request is registered with. *)
Definition handle (r : request) : JS Response :=
  match r with
  | PostSensorData env body => post_sensor_data env body
  | GetSensorData env limit => get_sensor_data env limit
  | GetLatest env => get_sensor_data_latest env
  end.

(** Whether the handler of a request throws: a create with its fields
    present and one of them not convertible, or a list whose limit is
    not convertible. *)
Definition throws (r : request) : bool :=
  match r with
  | PostSensorData env body => fields_present body && conversion_throws body
  | GetSensorData env limit => qs_raises_TypeError limit
  | GetLatest env => false
  end.

(** The requests a process handles of those that arrive: all up to and
    including the first whose handler throws.  The handlers are [async],
    so the exception is a promise rejection nothing handles, which ends
    the process. *)
Fixpoint handled (rs : list request) : list request :=
  match rs with
  | [] => []
  | r :: rs' => if throws r then [r] else r :: handled rs'
  end.

(** Requests handled one after the other, up to the first handler that
    throws; each outcome is collected, and the store is what the
    handlers left. *)
Fixpoint run (rs : list request) (st : Store) : list (completion Response) * Store :=
  match rs with
  | [] => ([], st)
  | r :: rs' =>
      match handle r st with
      | (Normal response, st') =>
          let (outcomes, st'') := run rs' st' in (Normal response :: outcomes, st'')
      | (Throw e, st') => ([Throw e], st')
      end
  end.

(** What one request does to the store: nothing, or a valid create put
    its document into the collection, or a valid create put its stamped
    entry at the front of the local buffer. *)
Inductive effect (r : request) (st st' : Store) : Prop :=
  | Unchanged : st' = st -> effect r st st'
  | StoredDurably env body entry :
      r = PostSensorData env body -> fields_present body = true ->
      entry_of env body = Some entry ->
      st' = {| sensorData := sensorData st;
               collection := insert_at (later_documents env) (doc_of env entry)
                               (collection st) |} ->
      effect r st st'
  | StoredLocally env body entry :
      r = PostSensorData env body -> fields_present body = true ->
      entry_of env body = Some entry ->
      st' = {| sensorData := firstn 100 (entry :: sensorData st);
               collection := collection st |} ->
      effect r st st'.

(** A response the API documents: 200 with [success: true], or 400 or
    404 with [success: false]. *)
Definition documented (resp : Response) : Prop :=
  (status resp = 200 /\ success_of resp = true)
  \/ ((status resp = 400 \/ status resp = 404) /\ success_of resp = false).

(** The stamped entry of a request, if it is a create with all fields
    whose conversions return. *)
Definition created_by (r : request) (e : Reading.t) : Prop :=
  exists env body, r = PostSensorData env body /\ fields_present body = true
                   /\ entry_of env body = Some e.

(** The string, once leading white space and a sign are dropped, starts
    with [0x] or [0X]. *)
Definition has_hex_prefix (s : string) : bool :=
  let S := trim_start s in
  let S := match S with
           | String "-" r => r
           | String "+" r => r
           | _ => S
           end in
  match S with
  | String "0" (String p _) => (code p =? 120) || (code p =? 88)
  | _ => false
  end.

Fixpoint no_slash (s : string) : bool :=
  match s with
  | String c s' => negb (code c =? 47) && no_slash s'
  | EmptyString => true
  end.

(** Wall-clock fields in the ranges of a calendar date and a time of
    day, with a four-digit year from 1970 on. *)
Definition plausible (f : Intl.fields) : Prop :=
  Calendar.valid_date (Intl.date f)
  /\ 1970 <= Calendar.year (Intl.date f) <= 9999
  /\ 0 <= Intl.hour f < 24 /\ 0 <= Intl.minute f < 60 /\ 0 <= Intl.second f < 60.

(* ===================================================================== *)
(** * Properties *)
(* ===================================================================== *)

(** ** Calendar *)

Module CalendarFacts.
Import Calendar.

Ltac divmod := Z.div_mod_to_equations; lia.

(** Names the intermediate quantities of [civil_from_days] and bounds
    them. *)
Ltac name_parts z :=
  unfold civil_from_days; cbn [year month day];
  set (z1 := z + 719468);
  set (era := z1 / 146097);
  set (doe := z1 - era * 146097);
  assert (Hdoe : 0 <= doe <= 146096) by (subst doe era; divmod);
  set (yoe := (doe - doe / 1460 + doe / 36524 - doe / 146096) / 365);
  assert (Hyoe : 0 <= yoe <= 399) by (subst yoe; divmod);
  set (doy := doe - (365 * yoe + yoe / 4 - yoe / 100));
  assert (Hdoy : 0 <= doy <= 365) by (subst doy yoe; divmod);
  set (mp := (5 * doy + 2) / 153);
  assert (Hmp : 0 <= mp <= 11) by (subst mp; divmod).

Ltac case_eqb :=
  repeat match goal with |- context [Z.eqb ?a ?b] => destruct (Z.eqb_spec a b) end.

Lemma days_from_civil_from_days z : days_from_civil (civil_from_days z) = z.
Proof.
  unfold days_from_civil. name_parts z.
  destruct (Z.ltb_spec mp 10).
  - destruct (Z.leb_spec (mp + 3) 2); [lia|].
    replace (mp + 3 - 3) with mp by lia.
    replace ((yoe + era * 400 + 0 - 0) / 400) with era by divmod.
    subst doy. divmod.
  - destruct (Z.leb_spec (mp - 9) 2); [|lia].
    replace (mp - 9 + 9) with mp by lia.
    replace ((yoe + era * 400 + 1 - 1) / 400) with era by divmod.
    subst doy. divmod.
Qed.

Lemma civil_from_days_valid z : valid_date (civil_from_days z).
Proof.
  unfold valid_date, days_in_month, is_leap. name_parts z.
  assert (Hleap : doy = 365 ->
                  (yoe + 1) mod 4 = 0 /\ ((yoe + 1) mod 100 <> 0 \/ yoe = 399))
    by (subst doy yoe; divmod).
  assert (Hd : 1 <= doy - (153 * mp + 2) / 5 + 1 <= 31) by (subst mp; divmod).
  split; [destruct (Z.ltb_spec mp 10); lia|].
  split; [lia|].
  destruct (Z.ltb_spec mp 10) as [Hlt|Hge].
  - destruct (Z.leb_spec (mp + 3) 2); [lia|].
    destruct (Z.eqb_spec (mp + 3) 2); [lia|].
    case_eqb; cbn [orb]; subst mp; divmod.
  - destruct (Z.leb_spec (mp - 9) 2); [|lia].
    destruct (Z.eqb_spec (mp - 9) 2) as [E|E].
    + assert (Hy : (yoe + era * 400 + 1) mod 4 = (yoe + 1) mod 4 /\
                   (yoe + era * 400 + 1) mod 100 = (yoe + 1) mod 100 /\
                   (yoe + era * 400 + 1) mod 400 = (yoe + 1) mod 400)
        by (repeat split; divmod).
      destruct Hy as (-> & -> & ->).
      assert (Hd29 : doy - (153 * mp + 2) / 5 + 1 <= 29) by (subst mp; divmod).
      assert (Hfeb : doy - (153 * mp + 2) / 5 + 1 = 29 -> doy = 365) by (subst mp; divmod).
      case_eqb; cbn [andb orb negb]; try lia.
      all: assert (doy <> 365)
        by (intros Hc; destruct (Hleap Hc) as [? [?|?]];
            clear Hd Hd29 Hfeb; clearbody doy yoe; divmod); lia.
    + case_eqb; cbn [orb]; subst mp; divmod.
Qed.

(** Day 2932896 is 9999-12-31. *)
Lemma civil_from_days_year z :
  0 <= z <= 2932896 -> 1970 <= year (civil_from_days z) <= 9999.
Proof.
  intros Hz. name_parts z.
  destruct (Z.ltb_spec mp 10).
  - destruct (Z.leb_spec (mp + 3) 2); [lia|].
    subst mp doy yoe doe z1; divmod.
  - destruct (Z.leb_spec (mp - 9) 2); [|lia].
    subst mp doy yoe doe z1; divmod.
Qed.

End CalendarFacts.

(** ** Digits and the date pattern *)

Lemma is_digit_digit_char d : 0 <= d <= 9 -> is_digit (digit_char d) = true.
Proof.
  intros H.
  assert (E : d = 0 \/ d = 1 \/ d = 2 \/ d = 3 \/ d = 4 \/ d = 5 \/ d = 6 \/ d = 7
              \/ d = 8 \/ d = 9) by lia.
  repeat (destruct E as [-> | E]; [reflexivity|]). subst d. reflexivity.
Qed.

Lemma is_digit_mod10 n : is_digit (digit_char (n mod 10)) = true.
Proof. apply is_digit_digit_char. pose proof (Z.mod_pos_bound n 10). lia. Qed.

Lemma all_digits_pad2 n : all_digits (pad2 n) = true.
Proof. unfold pad2. cbn [all_digits]. now rewrite !is_digit_mod10. Qed.

Lemma all_digits_pad4 n : all_digits (pad4 n) = true.
Proof. unfold pad4. cbn [all_digits]. now rewrite !is_digit_mod10, all_digits_pad2. Qed.

Lemma append_nil (r : string) : "" ++ r = r.
Proof. reflexivity. Qed.

Lemma append_cons c (s r : string) : String c s ++ r = String c (s ++ r).
Proof. reflexivity. Qed.

Ltac norm_append := rewrite ?append_cons, ?append_nil.

Lemma take_digits_app ds r :
  all_digits ds = true -> starts_without_digit r = true ->
  take_digits (ds ++ r) = (ds, r).
Proof.
  intros Hds Hr. induction ds as [|c ds IH]; norm_append.
  - destruct r as [|c r]; [reflexivity|].
    simpl in *. destruct (is_digit c); [discriminate|reflexivity].
  - simpl in *. apply andb_prop in Hds as [Hc Hds]. rewrite Hc, (IH Hds). reflexivity.
Qed.

Lemma match_date_at_app g1 g2 g3 rest :
  all_digits g1 = true -> all_digits g2 = true -> all_digits g3 = true ->
  g1 <> "" -> g2 <> "" -> g3 <> "" -> starts_without_digit rest = true ->
  match_date_at (g1 ++ "/" ++ g2 ++ "/" ++ g3 ++ rest) = Some (g1, g2, g3, rest).
Proof.
  intros H1 H2 H3 N1 N2 N3 Hr. unfold match_date_at. norm_append.
  rewrite (take_digits_app g1) by (auto; reflexivity).
  apply String.eqb_neq in N1, N2, N3. rewrite N1. cbn [expect_slash].
  rewrite (take_digits_app g2) by (auto; reflexivity).
  rewrite N2. cbn [expect_slash].
  rewrite (take_digits_app g3) by auto.
  now rewrite N3.
Qed.

Lemma replace_date_at_head s g1 g2 g3 rest :
  match_date_at s = Some (g1, g2, g3, rest) ->
  replace_date s = g3 ++ "-" ++ g1 ++ "-" ++ g2 ++ rest.
Proof. intros H. destruct s; cbn [replace_date]; now rewrite H. Qed.

Lemma Z_to_string_four_digits y : 1000 <= y <= 9999 -> Z_to_string y = pad4 y.
Proof.
  intros Hy. unfold Z_to_string.
  destruct (Z.ltb_spec y 0); [lia|].
  assert (Hlog : 9 <= Z.log2 y) by (change 9 with (Z.log2 1000); apply Z.log2_le_mono; lia).
  destruct (Z.to_nat (Z.log2 y)) as [|[|[|n]]] eqn:E; try lia.
  cbn [dec_digits].
  assert (A1 : (y / 10 =? 0) = false) by (apply Z.eqb_neq; CalendarFacts.divmod).
  assert (A2 : (y / 10 / 10 =? 0) = false) by (apply Z.eqb_neq; CalendarFacts.divmod).
  assert (A3 : (y / 10 / 10 / 10 =? 0) = false) by (apply Z.eqb_neq; CalendarFacts.divmod).
  assert (A4 : (y / 10 / 10 / 10 / 10 =? 0) = true) by (apply Z.eqb_eq; CalendarFacts.divmod).
  rewrite A1, A2, A3, A4. unfold pad4, pad2.
  replace (y / 10 / 10 / 10) with (y / 1000) by CalendarFacts.divmod.
  replace (y / 10 / 10) with (y / 100) by CalendarFacts.divmod.
  reflexivity.
Qed.

(** ** The timestamp *)

Lemma wall_clock_facts t :
  0 <= t < year_10000 ->
  let f := Intl.wall_clock t in
  Calendar.valid_date (Intl.date f)
  /\ 1970 <= Calendar.year (Intl.date f) <= 9999
  /\ 0 <= Intl.hour f < 24 /\ 0 <= Intl.minute f < 60 /\ 0 <= Intl.second f < 60
  /\ local_seconds f = t / 1000 + Intl.kolkata_offset.
Proof.
  intros Ht f. subst f. unfold year_10000, local_seconds, Intl.wall_clock, Intl.kolkata_offset in *.
  cbn [Intl.date Intl.hour Intl.minute Intl.second].
  set (secs := t / 1000 + 19800).
  assert (Hsecs : 19800 <= secs < 253402300800) by (subst secs; CalendarFacts.divmod).
  split; [apply CalendarFacts.civil_from_days_valid|].
  split; [apply CalendarFacts.civil_from_days_year; CalendarFacts.divmod|].
  rewrite CalendarFacts.days_from_civil_from_days.
  repeat split; CalendarFacts.divmod.
Qed.

Lemma getISTDateTime_rendered hc t :
  0 <= t < year_10000 ->
  getISTDateTime hc t = rendered_timestamp hc (Intl.wall_clock t).
Proof.
  intros Ht. destruct (wall_clock_facts t Ht) as (_ & Hy & _).
  unfold getISTDateTime, Intl.toLocaleString, rendered_timestamp.
  set (f := Intl.wall_clock t) in *.
  rewrite Z_to_string_four_digits by lia.
  erewrite replace_date_at_head.
  2:{ apply match_date_at_app;
        auto using all_digits_pad2, all_digits_pad4; discriminate. }
  reflexivity.
Qed.

(** ** Lists: [slice] from the front, and the cut to 100 entries *)

Lemma firstn_min_length {A} (l : list A) (n : Z) :
  0 <= n -> firstn (Z.to_nat (Z.min n (Z.of_nat (length l)))) l = firstn (Z.to_nat n) l.
Proof.
  intros Hn. destruct (Z.le_ge_cases n (Z.of_nat (length l))) as [H|H].
  - now rewrite Z.min_l.
  - rewrite Z.min_r, Nat2Z.id by lia.
    rewrite !firstn_all2; auto; lia.
Qed.

Lemma slice_front {A} (l : list A) (n : Z) :
  0 <= n -> slice l 0 n = firstn (Z.to_nat n) l.
Proof.
  intros Hn. unfold slice.
  destruct (Z.ltb_spec 0 0); [lia|]. destruct (Z.ltb_spec n 0); [lia|].
  rewrite (Z.min_l 0), Z.sub_0_r by lia. cbn [Z.to_nat skipn].
  now apply firstn_min_length.
Qed.

Lemma slice_front_negative {A} (l : list A) (n : Z) :
  n < 0 -> slice l 0 n = firstn (length l - Z.to_nat (- n)) l.
Proof.
  intros Hn. unfold slice.
  destruct (Z.ltb_spec 0 0); [lia|]. destruct (Z.ltb_spec n 0); [|lia].
  rewrite (Z.min_l 0), Z.sub_0_r by lia. cbn [Z.to_nat skipn].
  f_equal. lia.
Qed.

Lemma slice_nil {A} (a b : Z) : slice (@nil A) a b = [].
Proof. unfold slice. now rewrite skipn_nil, firstn_nil. Qed.

Lemma firstn_app_firstn {A} (a b : list A) (n m : nat) :
  (n <= m)%nat -> firstn n (a ++ firstn m b) = firstn n (a ++ b).
Proof.
  revert n. induction a as [|x a IH]; intros n Hnm.
  - rewrite !app_nil_l, firstn_firstn. f_equal. lia.
  - destruct n as [|n]; [reflexivity|].
    rewrite <- !app_comm_cons, !firstn_cons. f_equal. apply IH. lia.
Qed.

(** ** The local store *)

Lemma store_locally_spec entry st :
  store_locally entry st =
  (Normal tt, {| sensorData := firstn 100 (entry :: sensorData st);
                 collection := collection st |}).
Proof.
  unfold store_locally, bind, modify, gets, ret. cbn [sensorData collection].
  destruct (Z.ltb_spec 100 (Z.of_nat (length (entry :: sensorData st)))) as [H|H].
  - now rewrite slice_front by lia.
  - rewrite firstn_all2; [reflexivity|]. lia.
Qed.

Lemma sensorData_insert entry st :
  sensorData (insert entry st) = firstn 100 (entry :: sensorData st).
Proof. unfold insert. now rewrite store_locally_spec. Qed.

Lemma collection_insert entry st : collection (insert entry st) = collection st.
Proof. unfold insert. now rewrite store_locally_spec. Qed.

Lemma sensorData_insert_all entries st :
  (length (sensorData st) <= 100)%nat ->
  sensorData (insert_all entries st) = firstn 100 (rev entries ++ sensorData st).
Proof.
  revert st. induction entries as [|e es IH]; intros st Hst.
  - cbn. rewrite firstn_all2; auto.
  - cbn [insert_all fold_left]. fold (insert_all es (insert e st)).
    rewrite IH by (rewrite sensorData_insert, length_firstn; lia).
    rewrite sensorData_insert, firstn_app_firstn by lia.
    cbn [rev]. now rewrite <- app_assoc.
Qed.

(** ** The handlers, case by case *)

Lemma bind_lift_Normal {A B} (c : completion A) (a : A) (k : A -> JS B) st :
  c = Normal a -> bind (lift c) k st = k a st.
Proof. now intros ->. Qed.

Lemma bind_lift_Throw {A B} (c : completion A) (e : string) (k : A -> JS B) st :
  c = Throw e -> bind (lift c) k st = (Throw e, st).
Proof. now intros ->. Qed.

Lemma Number_completes v :
  (raises_TypeError v = true /\ Number v = Throw "TypeError")
  \/ (raises_TypeError v = false /\ exists x, Number v = Normal x).
Proof.
  unfold Number. destruct (raises_TypeError v); [left|right]; split; eauto.
Qed.

Lemma entry_of_Some env body e :
  entry_of env body = Some e <->
  exists w c f,
    Number (prop body "waterLevel") = Normal w
    /\ Number (prop body "temperatureCelsius") = Normal c
    /\ Number (prop body "temperatureFahrenheit") = Normal f
    /\ e = make_entry env w c f.
Proof.
  unfold entry_of. split.
  - destruct (Number (prop body "waterLevel")) as [w|]; [|discriminate].
    destruct (Number (prop body "temperatureCelsius")) as [c|]; [|discriminate].
    destruct (Number (prop body "temperatureFahrenheit")) as [f|]; [|discriminate].
    intros [= <-]. now exists w, c, f.
  - intros (w & c & f & -> & -> & -> & ->). reflexivity.
Qed.

Lemma entry_of_None env body :
  entry_of env body = None <-> conversion_throws body = true.
Proof.
  unfold entry_of, conversion_throws.
  destruct (Number_completes (prop body "waterLevel")) as [[-> ->]|[-> [w ->]]];
    [cbn; tauto|].
  destruct (Number_completes (prop body "temperatureCelsius")) as [[-> ->]|[-> [c ->]]];
    [cbn; tauto|].
  destruct (Number_completes (prop body "temperatureFahrenheit")) as [[-> ->]|[-> [f ->]]];
    cbn; split; congruence.
Qed.

Lemma post_missing env body st :
  fields_present body = false ->
  post_sensor_data env body st =
  (Normal {| status := 400; json := JMessage false missing_fields_message |}, st).
Proof.
  unfold fields_present, post_sensor_data. intros H.
  apply negb_false_iff in H. now rewrite H.
Qed.

Lemma post_throws env body st :
  fields_present body = true -> conversion_throws body = true ->
  post_sensor_data env body st = (Throw "TypeError", st).
Proof.
  unfold fields_present, conversion_throws, post_sensor_data. intros H T.
  apply negb_true_iff in H. rewrite H.
  destruct (Number_completes (prop body "waterLevel")) as [[_ Ew]|[Rw [w Ew]]];
    [now rewrite (bind_lift_Throw _ _ _ _ Ew)|].
  rewrite (bind_lift_Normal _ _ _ _ Ew).
  destruct (Number_completes (prop body "temperatureCelsius")) as [[_ Ec]|[Rc [c Ec]]];
    [now rewrite (bind_lift_Throw _ _ _ _ Ec)|].
  rewrite (bind_lift_Normal _ _ _ _ Ec).
  destruct (Number_completes (prop body "temperatureFahrenheit")) as [[_ Ef]|[Rf [f Ef]]];
    [now rewrite (bind_lift_Throw _ _ _ _ Ef)|].
  rewrite Rw, Rc, Rf in T. discriminate T.
Qed.

Lemma post_durable env body st entry :
  fields_present body = true -> entry_of env body = Some entry ->
  durable_answers env = true ->
  post_sensor_data env body st =
  (Normal {| status := 200;
             json := JStored true "Data stored successfully (db)"
                       (reading_of_doc (doc_of env entry)) |},
   {| sensorData := sensorData st;
      collection := insert_at (later_documents env) (doc_of env entry) (collection st) |}).
Proof.
  unfold fields_present, durable_answers, post_sensor_data. intros H He Hd.
  apply entry_of_Some in He as (w & c & f & Ew & Ec & Ef & ->).
  apply negb_true_iff in H. apply andb_prop in Hd as [Hc Hr]. apply negb_true_iff in Hr.
  rewrite H, Hc.
  rewrite (bind_lift_Normal _ _ _ _ Ew), (bind_lift_Normal _ _ _ _ Ec),
    (bind_lift_Normal _ _ _ _ Ef).
  unfold bind, try_catch, SensorData_create, ret. now rewrite Hr.
Qed.

Lemma post_fallback env body st entry :
  fields_present body = true -> entry_of env body = Some entry ->
  durable_answers env = false ->
  post_sensor_data env body st =
  (Normal {| status := 200;
             json := JStored true "Data stored locally (fallback)" entry |},
   {| sensorData := firstn 100 (entry :: sensorData st);
      collection := collection st |}).
Proof.
  unfold fields_present, durable_answers, post_sensor_data. intros H He Hd.
  apply entry_of_Some in He as (w & c & f & Ew & Ec & Ef & ->).
  apply negb_true_iff in H. rewrite H.
  rewrite (bind_lift_Normal _ _ _ _ Ew), (bind_lift_Normal _ _ _ _ Ec),
    (bind_lift_Normal _ _ _ _ Ef).
  set (entry := make_entry env w c f).
  unfold bind at 1.
  assert (E : (if isDbConnected env
               then try_catch
                      (doc <- SensorData_create env (Reading.waterLevel entry)
                                (Reading.temperatureCelsius entry)
                                (Reading.temperatureFahrenheit entry)
                                (Reading.timestamp entry) ;;
                       ret (Some {| status := 200;
                                    json := JStored true "Data stored successfully (db)"
                                              (reading_of_doc doc) |}))
                      (fun _ => ret None)
               else ret None) st = (Normal None, st)).
  { destruct (isDbConnected env); [|reflexivity].
    cbn [andb] in Hd. apply negb_false_iff in Hd.
    unfold try_catch, bind, SensorData_create, ret. now rewrite Hd. }
  rewrite E. unfold try_catch, bind at 1. rewrite store_locally_spec. reflexivity.
Qed.

Lemma limit_of_completes q :
  (qs_raises_TypeError q = true /\ limit_of q = Throw "TypeError"
   /\ ServerJs.limit_of q = Throw "TypeError")
  \/ (qs_raises_TypeError q = false
      /\ limit_of q = Normal (or_default (parseInt (qs_text q) 10) 10)
      /\ ServerJs.limit_of q = Normal (or_default (parseInt (qs_text q) 0) 10)).
Proof.
  unfold limit_of, ServerJs.limit_of, qs_ToString.
  destruct (qs_raises_TypeError q); [left|right]; repeat split.
Qed.

Lemma get_throws env q st e :
  limit_of q = Throw e -> get_sensor_data env q st = (Throw e, st).
Proof. intros H. unfold get_sensor_data. now rewrite (bind_lift_Throw _ _ _ _ H). Qed.

Lemma get_durable env q st n :
  limit_of q = Normal (Finite n) -> durable_answers env = true ->
  get_sensor_data env q st =
  (Normal {| status := 200;
             json := JList true (map reading_of_doc (cursor_limit n (collection st))) |},
   st).
Proof.
  unfold durable_answers, get_sensor_data. intros H Hd.
  apply andb_prop in Hd as [Hc Hr]. apply negb_true_iff in Hr.
  rewrite (bind_lift_Normal _ _ _ _ H).
  rewrite Hc. unfold bind, try_catch, SensorData_find, ret. now rewrite Hr.
Qed.

Lemma get_fallback env q st limit :
  limit_of q = Normal limit -> durable_answers env = false ->
  get_sensor_data env q st =
  (Normal {| status := 200; json := JList true (slice_to (sensorData st) limit) |}, st).
Proof.
  unfold durable_answers, get_sensor_data. intros H Hd.
  rewrite (bind_lift_Normal _ _ _ _ H).
  destruct (isDbConnected env); [|reflexivity].
  cbn [andb] in Hd. apply negb_false_iff in Hd.
  unfold bind, try_catch, SensorData_find, gets, ret. rewrite Hd.
  destruct limit; reflexivity.
Qed.

Lemma get_infinite env q st limit :
  limit_of q = Normal limit -> (forall n, limit <> Finite n) ->
  get_sensor_data env q st =
  (Normal {| status := 200; json := JList true (slice_to (sensorData st) limit) |}, st).
Proof.
  unfold get_sensor_data. intros H Hl.
  rewrite (bind_lift_Normal _ _ _ _ H).
  destruct limit as [n| |]; [now destruct (Hl n)| |];
    destruct (isDbConnected env); reflexivity.
Qed.

(** A list request either throws while reading its limit, or is
    answered 200; the store is as it was. *)
Lemma get_outcome env q st :
  (qs_raises_TypeError q = true /\ get_sensor_data env q st = (Throw "TypeError", st))
  \/ (qs_raises_TypeError q = false
      /\ exists data,
           get_sensor_data env q st
           = (Normal {| status := 200; json := JList true data |}, st)).
Proof.
  destruct (limit_of_completes q) as [(R & L & _)|(R & L & _)]; [left|right];
    (split; [exact R|]).
  - now apply get_throws.
  - destruct (durable_answers env) eqn:D.
    + destruct (or_default (parseInt (qs_text q) 10) 10) as [n| |].
      * eexists. now apply (get_durable env q st n).
      * eexists. apply (get_infinite env q st _ L). discriminate.
      * eexists. apply (get_infinite env q st _ L). discriminate.
    + eexists. exact (get_fallback env q st _ L D).
Qed.

Lemma latest_spec env st :
  get_sensor_data_latest env st =
  (Normal match (if durable_answers env then head (collection st) else None) with
          | Some doc => {| status := 200; json := JOne true (reading_of_doc doc) |}
          | None =>
              match sensorData st with
              | first :: _ => {| status := 200; json := JOne true first |}
              | [] => {| status := 404; json := JMessage false "No data available" |}
              end
          end, st).
Proof.
  unfold durable_answers, get_sensor_data_latest.
  unfold bind, try_catch, SensorData_findOne, gets, ret.
  destruct (isDbConnected env), (driver_rejects env); cbn [andb negb];
    try (destruct (sensorData st); reflexivity).
  destruct (head (collection st)); [reflexivity|].
  destruct (sensorData st); reflexivity.
Qed.

Lemma ServerJs_post_missing env body st :
  fields_present body = false ->
  ServerJs.post_sensor_data env body st =
  (Normal {| status := 400; json := JMessage false missing_fields_message |}, st).
Proof.
  unfold fields_present, ServerJs.post_sensor_data. intros H.
  apply negb_false_iff in H. now rewrite H.
Qed.

Lemma ServerJs_post_throws env body st :
  fields_present body = true -> conversion_throws body = true ->
  ServerJs.post_sensor_data env body st = (Throw "TypeError", st).
Proof.
  unfold fields_present, conversion_throws, ServerJs.post_sensor_data. intros H T.
  apply negb_true_iff in H. rewrite H.
  destruct (Number_completes (prop body "waterLevel")) as [[_ Ew]|[Rw [w Ew]]];
    [now rewrite (bind_lift_Throw _ _ _ _ Ew)|].
  rewrite (bind_lift_Normal _ _ _ _ Ew).
  destruct (Number_completes (prop body "temperatureCelsius")) as [[_ Ec]|[Rc [c Ec]]];
    [now rewrite (bind_lift_Throw _ _ _ _ Ec)|].
  rewrite (bind_lift_Normal _ _ _ _ Ec).
  destruct (Number_completes (prop body "temperatureFahrenheit")) as [[_ Ef]|[Rf [f Ef]]];
    [now rewrite (bind_lift_Throw _ _ _ _ Ef)|].
  rewrite Rw, Rc, Rf in T. discriminate T.
Qed.

Lemma ServerJs_post_stored env body st entry :
  fields_present body = true -> entry_of env body = Some entry ->
  ServerJs.post_sensor_data env body st =
  (Normal {| status := 200;
             json := JStored true "Data stored successfully" entry |},
   {| sensorData := firstn 100 (entry :: sensorData st);
      collection := collection st |}).
Proof.
  unfold fields_present, ServerJs.post_sensor_data. intros H He.
  apply entry_of_Some in He as (w & c & f & Ew & Ec & Ef & ->).
  apply negb_true_iff in H. rewrite H.
  rewrite (bind_lift_Normal _ _ _ _ Ew), (bind_lift_Normal _ _ _ _ Ec),
    (bind_lift_Normal _ _ _ _ Ef).
  unfold try_catch, bind. now rewrite store_locally_spec.
Qed.

Lemma ServerJs_get_throws q st e :
  ServerJs.limit_of q = Throw e -> ServerJs.get_sensor_data q st = (Throw e, st).
Proof.
  intros H. unfold ServerJs.get_sensor_data. now rewrite (bind_lift_Throw _ _ _ _ H).
Qed.

Lemma ServerJs_get_spec q st limit :
  ServerJs.limit_of q = Normal limit ->
  ServerJs.get_sensor_data q st =
  (Normal {| status := 200; json := JList true (slice_to (sensorData st) limit) |}, st).
Proof.
  intros H. unfold ServerJs.get_sensor_data. now rewrite (bind_lift_Normal _ _ _ _ H).
Qed.

Lemma ServerJs_latest_spec st :
  ServerJs.get_sensor_data_latest st =
  (Normal match sensorData st with
          | first :: _ => {| status := 200; json := JOne true first |}
          | [] => {| status := 404; json := JMessage false "No data available" |}
          end, st).
Proof.
  unfold ServerJs.get_sensor_data_latest, try_catch, bind, gets, ret.
  destruct (sensorData st); reflexivity.
Qed.

Lemma durable_answers_false env :
  isDbConnected env = false \/ driver_rejects env = true -> durable_answers env = false.
Proof.
  unfold durable_answers. intros [-> | ->]; [reflexivity|].
  now rewrite andb_false_r.
Qed.

Lemma fields_present_missing body :
  fields_present body = false <-> some_field_missing body.
Proof.
  unfold fields_present, some_field_missing, missing_or_null, prop.
  rewrite negb_false_iff, !orb_true_iff.
  assert (E : forall k, is_missing match body !! k with Some v => v | None => VUndefined end = true
                        <-> body !! k = None \/ body !! k = Some VNull
                            \/ body !! k = Some VUndefined).
  { intros k. destruct (body !! k) as [[]|]; cbn; intuition congruence. }
  rewrite !E. tauto.
Qed.

Lemma Number_VNum_lookup body k x :
  body !! k = Some (VNum x) -> Number (prop body k) = Normal x.
Proof. unfold prop. now intros ->. Qed.

Lemma present_VNum body x y z :
  body !! "waterLevel" = Some (VNum x) ->
  body !! "temperatureCelsius" = Some (VNum y) ->
  body !! "temperatureFahrenheit" = Some (VNum z) ->
  fields_present body = true.
Proof. unfold fields_present, prop. now intros -> -> ->. Qed.

Lemma entry_of_VNum env body x y z :
  body !! "waterLevel" = Some (VNum x) ->
  body !! "temperatureCelsius" = Some (VNum y) ->
  body !! "temperatureFahrenheit" = Some (VNum z) ->
  entry_of env body = Some (make_entry env x y z).
Proof.
  intros Hx Hy Hz. apply entry_of_Some. exists x, y, z.
  now rewrite (Number_VNum_lookup _ _ _ Hx), (Number_VNum_lookup _ _ _ Hy),
    (Number_VNum_lookup _ _ _ Hz).
Qed.

(** ** Sessions without the database *)

Lemma collection_insert_all entries st :
  collection (insert_all entries st) = collection st.
Proof.
  revert st. induction entries as [|e es IH]; intros st; [reflexivity|].
  cbn [insert_all fold_left]. fold (insert_all es (insert e st)).
  now rewrite IH, collection_insert.
Qed.

Lemma run_creates_offline reqs entries st :
  Forall2 offline_and_valid reqs entries ->
  run_creates reqs st =
  (Normal (map stored_locally_response entries), insert_all entries st).
Proof.
  intros H. revert st.
  induction H as [|[env body] e reqs entries (Hc & Hp & He) _ IH]; intros st.
  - reflexivity.
  - cbn [run_creates]. unfold bind at 1. cbn [fst snd] in Hc, Hp, He.
    rewrite (post_fallback env body st e Hp He)
      by (apply durable_answers_false; now left).
    unfold bind at 1. rewrite IH. unfold ret.
    cbn [map insert_all fold_left].
    unfold insert at 2. rewrite store_locally_spec. reflexivity.
Qed.

Lemma creates_then_list_offline reqs entries env q st0 :
  Forall2 offline_and_valid reqs entries ->
  isDbConnected env = false ->
  sensorData st0 = [] ->
  limit_of q = Normal (Finite (Z.of_nat (length reqs))) ->
  creates_then_list reqs env q st0 =
  (Normal {| status := 200; json := JList true (firstn 100 (rev entries)) |},
   insert_all entries st0)
  /\ sensorData (insert_all entries st0) = firstn 100 (rev entries).
Proof.
  intros Hreqs Henv Hst Hq.
  assert (Hsd : sensorData (insert_all entries st0) = firstn 100 (rev entries)).
  { rewrite sensorData_insert_all by (rewrite Hst; cbn; lia).
    now rewrite Hst, app_nil_r. }
  split; [|exact Hsd].
  unfold creates_then_list, bind. rewrite (run_creates_offline _ _ _ Hreqs).
  rewrite (get_fallback _ _ _ _ Hq) by (apply durable_answers_false; now left).
  rewrite Hsd. cbn [slice_to].
  do 3 f_equal.
  assert (Hlen : length (rev entries) = length reqs)
    by (rewrite length_rev; symmetry; exact (Forall2_length _ _ _ Hreqs)).
  destruct (Z.eqb_spec (Z.of_nat (length reqs)) 0) as [E|E].
  - destruct reqs; [|discriminate E]. inversion Hreqs. reflexivity.
  - rewrite slice_front, Nat2Z.id by lia.
    rewrite firstn_firstn.
    destruct (Nat.le_ge_cases (length reqs) 100) as [L|L].
    + rewrite !firstn_all2; [reflexivity|lia|lia].
    + rewrite Nat.min_r by lia. reflexivity.
Qed.

Lemma sample_body_entry t : entry_of (offline_env t) sample_body = Some (sample_entry t).
Proof.
  apply entry_of_Some. do 3 eexists.
  split; [vm_compute; reflexivity|].
  split; [vm_compute; reflexivity|].
  split; [vm_compute; reflexivity|]. reflexivity.
Qed.

Lemma sample_requests_offline n :
  Forall2 offline_and_valid (sample_requests n) (sample_entries n).
Proof.
  unfold sample_requests, sample_entries.
  induction (seq 0 n) as [|i l IH]; cbn [map]; constructor; [|exact IH].
  split; [reflexivity|]. split; [reflexivity|]. apply sample_body_entry.
Qed.

(** ** The two servers, with the database away *)

(** With the connection not ready the MongoDB-backed handlers do what
    the handlers of [server.js] do, up to the text of the message of a
    create and to the radix of [parseInt]. *)
Lemma ServerJs_latest_agrees env st :
  isDbConnected env = false ->
  get_sensor_data_latest env st = ServerJs.get_sensor_data_latest st.
Proof.
  intros H. rewrite latest_spec, ServerJs_latest_spec.
  now rewrite (durable_answers_false env (or_introl H)).
Qed.

Lemma ServerJs_get_agrees env q st :
  isDbConnected env = false -> limit_of q = ServerJs.limit_of q ->
  get_sensor_data env q st = ServerJs.get_sensor_data q st.
Proof.
  intros H L. destruct (limit_of q) as [limit|e] eqn:E.
  - rewrite (ServerJs_get_spec q st limit) by now symmetry.
    apply get_fallback; [exact E|]. apply durable_answers_false. now left.
  - rewrite (ServerJs_get_throws q st e) by now symmetry.
    now apply get_throws.
Qed.

Lemma ServerJs_post_agrees env body st :
  isDbConnected env = false ->
  snd (post_sensor_data env body st) = snd (ServerJs.post_sensor_data env body st)
  /\ (fields_present body = false \/ conversion_throws body = true ->
      post_sensor_data env body st = ServerJs.post_sensor_data env body st).
Proof.
  intros H. pose proof (durable_answers_false env (or_introl H)) as D.
  destruct (fields_present body) eqn:P.
  - destruct (entry_of env body) as [e|] eqn:E.
    + rewrite (post_fallback env body st e P E D), (ServerJs_post_stored env body st e P E).
      split; [reflexivity|]. intros [F|F]; [discriminate F|].
      apply (entry_of_None env) in F. congruence.
    + apply entry_of_None in E.
      rewrite (post_throws env body st P E), (ServerJs_post_throws env body st P E).
      split; reflexivity.
  - rewrite (post_missing env body st P), (ServerJs_post_missing env body st P).
    split; reflexivity.
Qed.

(* ===================================================================== *)
(** * The claims *)
(* ===================================================================== *)

(** C1.  A create request with all three fields present whose
    [SensorData.create] is reached and rejected (the three conversions
    have returned, so the entry is stamped; the connection is ready; the
    driver rejects) puts that already-stamped entry at the front of the
    local buffer (cut to 100 entries), leaves the collection alone and
    answers 200 with [success: true].  A list request whose query is
    reached (the limit has been read) and rejected answers 200 with the
    entries of the local buffer.  No rejection of the durable store
    becomes an error response. *)
Theorem durable_failure_falls_back env body q st entry limit :
  fields_present body = true ->
  entry_of env body = Some entry ->
  limit_of q = Normal limit ->
  isDbConnected env = true ->
  driver_rejects env = true ->
  post_sensor_data env body st =
    (Normal {| status := 200;
               json := JStored true "Data stored locally (fallback)" entry |},
     {| sensorData := firstn 100 (entry :: sensorData st);
        collection := collection st |})
  /\ get_sensor_data env q st =
    (Normal {| status := 200; json := JList true (slice_to (sensorData st) limit) |}, st).
Proof.
  intros Hp He Hl Hc Hr. split.
  - apply post_fallback; [assumption|assumption|]. apply durable_answers_false. now right.
  - apply get_fallback; [assumption|]. apply durable_answers_false. now right.
Qed.

Lemma durable_failure_falls_back_witness :
  fst (post_sensor_data (failing_env sample_instant) sample_body initial_store) =
    Normal {| status := 200;
              json := JStored true "Data stored locally (fallback)"
                        {| Reading.waterLevel := StringToNumber "12.5";
                           Reading.temperatureCelsius := StringToNumber "28.3";
                           Reading.temperatureFahrenheit := StringToNumber "82.9";
                           Reading.timestamp := "2025-11-03, 00:30:00";
                           Reading.id := "1762110000000" |} |}
  /\ fst (get_sensor_data (failing_env sample_instant) (QStr "5") initial_store) =
    Normal {| status := 200; json := JList true [] |}.
Proof.
  destruct (durable_failure_falls_back (failing_env sample_instant) sample_body (QStr "5")
              initial_store
              {| Reading.waterLevel := StringToNumber "12.5";
                 Reading.temperatureCelsius := StringToNumber "28.3";
                 Reading.temperatureFahrenheit := StringToNumber "82.9";
                 Reading.timestamp := "2025-11-03, 00:30:00";
                 Reading.id := "1762110000000" |}
              (Finite 5)
              eq_refl ltac:(vm_compute; reflexivity) ltac:(vm_compute; reflexivity)
              eq_refl eq_refl) as [Hpost Hget].
  rewrite Hpost, Hget. split; reflexivity.
Defined.

(** C2, as amended.  For every instant from the Unix epoch up to the end
    of year 9999 in [Asia/Kolkata], the timestamp of a created reading is
    the wall-clock reading of that instant at UTC+5:30 written as
    [YYYY-MM-DD, HH:MM:SS]: four-digit year, month and day, then a comma
    and one space, then the 24-hour time (midnight's hour shown as 00 or
    as 24, by the engine's hour cycle), twenty characters and no others.
    The fields are a valid calendar date and time of day, and they denote
    the instant shifted by five and a half hours. *)
Theorem getISTDateTime_format env w c f :
  0 <= clock_Date env < year_10000 ->
  let ts := Reading.timestamp (make_entry env w c f) in
  let wc := Intl.wall_clock (clock_Date env) in
  ts = getISTDateTime (hour_cycle env) (clock_Date env)
  /\ ts = rendered_timestamp (hour_cycle env) wc
  /\ String.length ts = 20%nat
  /\ Calendar.valid_date (Intl.date wc)
  /\ 1970 <= Calendar.year (Intl.date wc) <= 9999
  /\ 0 <= Intl.hour wc < 24 /\ 0 <= Intl.minute wc < 60 /\ 0 <= Intl.second wc < 60
  /\ local_seconds wc = clock_Date env / 1000 + 5 * 3600 + 30 * 60.
Proof.
  intros Ht ts wc. subst ts wc. cbn [make_entry Reading.timestamp].
  split; [reflexivity|].
  rewrite getISTDateTime_rendered by assumption.
  split; [reflexivity|].
  split; [reflexivity|].
  pose proof (wall_clock_facts _ Ht) as H. cbv zeta in H.
  unfold Intl.kolkata_offset in H. intuition lia.
Qed.

Lemma getISTDateTime_format_witness :
  Reading.timestamp (sample_entry sample_instant) = "2025-11-03, 00:30:00".
Proof.
  destruct (getISTDateTime_format (offline_env sample_instant)
              (StringToNumber "12.5") (StringToNumber "28.3") (StringToNumber "82.9"))
    as (_ & H & _).
  - cbn. unfold year_10000, sample_instant. lia.
  - unfold sample_entry. rewrite H. reflexivity.
Defined.

(** C2, as stated, fails: at the epoch the code's timestamp has a comma
    between date and time, so it is neither the specified string nor of
    the specified shape, under either hour cycle; and from the year 10000
    on the year has five digits. *)
Lemma getISTDateTime_has_comma :
  getISTDateTime Intl.h23 0 = "1970-01-01, 05:30:00"
  /\ getISTDateTime Intl.h24 0 = "1970-01-01, 05:30:00"
  /\ specified_timestamp (Intl.wall_clock 0) = "1970-01-01 05:30:00"
  /\ getISTDateTime Intl.h23 0 <> specified_timestamp (Intl.wall_clock 0)
  /\ getISTDateTime Intl.h24 0 <> specified_timestamp (Intl.wall_clock 0)
  /\ has_specified_shape (getISTDateTime Intl.h23 0) = false
  /\ has_specified_shape (getISTDateTime Intl.h24 0) = false
  /\ getISTDateTime Intl.h23 year_10000 = "10000-01-01, 00:00:00".
Proof.
  repeat split; try (vm_compute; reflexivity);
    intros H; vm_compute in H; discriminate H.
Qed.

(** C3.  After the inserts of any sequence of readings into the empty
    local buffer, the buffer holds the most recent 100 of them at most,
    newest first; an insert leaves at most 100 entries whatever the
    buffer held; and after 101 inserts the buffer is exactly the last 100
    readings inserted, newest first, the first-inserted one not being
    among them. *)
Theorem local_buffer_bounded (entries : list Reading.t) :
  let buffer := sensorData (insert_all entries initial_store) in
  buffer = firstn 100 (rev entries)
  /\ (length buffer <= 100)%nat
  /\ (forall e st, (length (sensorData (insert e st)) <= 100)%nat)
  /\ (forall first rest,
        entries = first :: rest -> length rest = 100%nat ->
        buffer = rev rest /\ length buffer = 100%nat
        /\ (~ In first rest -> ~ In first buffer)).
Proof.
  intros buffer.
  assert (E : buffer = firstn 100 (rev entries)).
  { subst buffer. rewrite sensorData_insert_all by (cbn; lia).
    cbn [initial_store sensorData]. now rewrite app_nil_r. }
  split; [exact E|].
  split; [rewrite E, length_firstn; lia|].
  split; [intros e st; rewrite sensorData_insert, length_firstn; lia|].
  intros first rest -> Hlen.
  assert (R : buffer = rev rest).
  { rewrite E. cbn [rev]. rewrite firstn_app, length_rev, Hlen.
    cbn [Nat.sub firstn]. rewrite app_nil_r, firstn_all2; [reflexivity|].
    rewrite length_rev. lia. }
  split; [exact R|].
  split; [rewrite R, length_rev; exact Hlen|].
  intros Hnot Hin. apply Hnot. rewrite R in Hin. now apply in_rev.
Qed.

Lemma local_buffer_bounded_witness :
  sensorData (insert_all (sample_entries 101) initial_store)
  = rev (tl (sample_entries 101))
  /\ ~ In (sample_entry sample_instant)
          (sensorData (insert_all (sample_entries 101) initial_store)).
Proof.
  destruct (local_buffer_bounded (sample_entries 101)) as (_ & _ & _ & H).
  destruct (H (sample_entry sample_instant) (tl (sample_entries 101)) eq_refl eq_refl)
    as (R & _ & N).
  split; [exact R|].
  apply N. vm_compute. intros Hin.
  repeat (destruct Hin as [Hin|Hin]; [discriminate Hin|]). exact Hin.
Defined.

(** C4.  The create handler, in both servers, answers 400 exactly when
    one of [waterLevel], [temperatureCelsius], [temperatureFahrenheit] is
    missing from the body or null: such a body is answered 400 with
    [success: false], the local buffer and the collection being left as
    they were, and a response with status 400 is given to such a body
    only.  Every response of the handler is this 400 or a 200 with
    [success: true]; and a body whose three fields are numbers, zero and
    negative ones among them, is answered 200. *)
Theorem create_validation env body st :
  (some_field_missing body ->
     post_sensor_data env body st
     = (Normal {| status := 400; json := JMessage false missing_fields_message |}, st)
     /\ ServerJs.post_sensor_data env body st
        = (Normal {| status := 400; json := JMessage false missing_fields_message |}, st))
  /\ (forall resp st',
        post_sensor_data env body st = (Normal resp, st')
        \/ ServerJs.post_sensor_data env body st = (Normal resp, st') ->
        (status resp = 400 ->
         some_field_missing body /\ success_of resp = false /\ st' = st)
        /\ (status resp <> 400 -> status resp = 200 /\ success_of resp = true))
  /\ (forall x y z,
        body !! "waterLevel" = Some (VNum x) ->
        body !! "temperatureCelsius" = Some (VNum y) ->
        body !! "temperatureFahrenheit" = Some (VNum z) ->
        (exists message r st',
            post_sensor_data env body st
            = (Normal {| status := 200; json := JStored true message r |}, st'))
        /\ (exists message r st',
            ServerJs.post_sensor_data env body st
            = (Normal {| status := 200; json := JStored true message r |}, st'))).
Proof.
  pose proof (fields_present_missing body) as M.
  split; [|split].
  - intros Y. apply M in Y.
    now rewrite (post_missing env body st Y), (ServerJs_post_missing env body st Y).
  - intros resp st' H.
    destruct (fields_present body) eqn:P.
    + assert (N : status resp = 200 /\ success_of resp = true).
      { destruct (entry_of env body) as [e|] eqn:E.
        - rewrite (ServerJs_post_stored env body st e P E) in H.
          destruct (durable_answers env) eqn:D;
            [rewrite (post_durable env body st e P E D) in H
            |rewrite (post_fallback env body st e P E D) in H];
            destruct H as [[= <- _]|[= <- _]]; split; reflexivity.
        - apply entry_of_None in E.
          rewrite (post_throws env body st P E), (ServerJs_post_throws env body st P E) in H.
          destruct H as [H|H]; discriminate H. }
      destruct N as [N1 N2]. split; [intros S; rewrite N1 in S; discriminate S|].
      intros _. now split.
    + rewrite (post_missing env body st P), (ServerJs_post_missing env body st P) in H.
      assert (R : resp = {| status := 400; json := JMessage false missing_fields_message |}
                  /\ st' = st)
        by (destruct H as [[= <- <-]|[= <- <-]]; now split).
      destruct R as [-> ->]. split.
      * intros _. split; [now apply M|]. now split.
      * intros S. now destruct S.
  - intros x y z Hx Hy Hz.
    pose proof (present_VNum body x y z Hx Hy Hz) as P.
    pose proof (entry_of_VNum env body x y z Hx Hy Hz) as E.
    split.
    + destruct (durable_answers env) eqn:D;
        [rewrite (post_durable env body st _ P E D)
        |rewrite (post_fallback env body st _ P E D)]; now do 3 eexists.
    + rewrite (ServerJs_post_stored env body st _ P E). now do 3 eexists.
Qed.

Lemma create_validation_witness :
  fst (post_sensor_data (offline_env sample_instant)
         (body_of (VNum (S754_zero false)) (VNum (StringToNumber "-1.5")) (VNum (S754_zero true)))
         initial_store)
  = Normal {| status := 200;
              json := JStored true "Data stored locally (fallback)"
                        {| Reading.waterLevel := S754_zero false;
                           Reading.temperatureCelsius := StringToNumber "-1.5";
                           Reading.temperatureFahrenheit := S754_zero true;
                           Reading.timestamp := "2025-11-03, 00:30:00";
                           Reading.id := "1762110000000" |} |}
  /\ post_sensor_data (live_env sample_instant "65a1")
       (body_of (VNum (StringToNumber "12.5")) VNull (VNum (StringToNumber "82.9")))
       initial_store
     = (Normal {| status := 400; json := JMessage false missing_fields_message |},
        initial_store).
Proof.
  split.
  - destruct (create_validation (offline_env sample_instant)
                (body_of (VNum (S754_zero false)) (VNum (StringToNumber "-1.5"))
                   (VNum (S754_zero true))) initial_store) as (_ & _ & H).
    destruct (H _ _ _ eq_refl eq_refl eq_refl) as [(message & r & st' & E) _].
    rewrite E. vm_compute in E. injection E as <- <- _. reflexivity.
  - destruct (create_validation (live_env sample_instant "65a1")
                (body_of (VNum (StringToNumber "12.5")) VNull (VNum (StringToNumber "82.9")))
                initial_store) as (H & _).
    apply H. right. left. right. left. reflexivity.
Defined.

(** C5, as amended.  The latest-reading handler answers with the newest
    document of the durable store whenever the connection is ready, the
    query succeeds and the collection has a document, whatever the local
    buffer holds; it answers with the front entry of the local buffer
    when the connection is not ready, the query is rejected or the
    collection is empty, and the buffer has an entry; and it answers 404
    exactly when the durable store gives no reading in one of these
    three ways and the local buffer is empty.  The store is left as it
    was. *)
Theorem latest_prefers_durable env st :
  (forall doc rest,
      isDbConnected env = true -> driver_rejects env = false ->
      collection st = doc :: rest ->
      get_sensor_data_latest env st =
        (Normal {| status := 200; json := JOne true (reading_of_doc doc) |}, st))
  /\ (forall first rest,
      isDbConnected env = false \/ driver_rejects env = true \/ collection st = [] ->
      sensorData st = first :: rest ->
      get_sensor_data_latest env st =
        (Normal {| status := 200; json := JOne true first |}, st))
  /\ (exists resp,
      get_sensor_data_latest env st = (Normal resp, st)
      /\ (status resp = 404 <->
          (isDbConnected env = false \/ driver_rejects env = true \/ collection st = [])
          /\ sensorData st = [])).
Proof.
  rewrite latest_spec. unfold durable_answers.
  split; [|split].
  - intros doc rest -> -> ->. reflexivity.
  - intros first rest [-> | [-> | ->]] ->; cbn [andb negb head];
      try rewrite andb_false_r; try reflexivity.
    destruct (_ && _); reflexivity.
  - eexists. split; [reflexivity|].
    destruct (isDbConnected env), (driver_rejects env), (collection st), (sensorData st);
      cbn [andb negb head status]; split;
      try (intros _; now auto); try (intros H; discriminate H);
      intros [[H | [H | H]] H']; discriminate.
Qed.

Lemma latest_prefers_durable_witness :
  get_sensor_data_latest (live_env sample_instant "")
    {| sensorData := [sample_entry 0]; collection := [sample_doc] |}
  = (Normal {| status := 200;
               json := JOne true
                         {| Reading.waterLevel := StringToNumber "12.5";
                            Reading.temperatureCelsius := StringToNumber "28.3";
                            Reading.temperatureFahrenheit := StringToNumber "82.9";
                            Reading.timestamp := "1970-01-01, 05:30:01";
                            Reading.id := "65a1" |} |},
     {| sensorData := [sample_entry 0]; collection := [sample_doc] |})
  /\ fst (get_sensor_data_latest (failing_env sample_instant)
            {| sensorData := [sample_entry 0]; collection := [sample_doc] |})
     = Normal {| status := 200; json := JOne true (sample_entry 0) |}.
Proof.
  split.
  - destruct (latest_prefers_durable (live_env sample_instant "")
                {| sensorData := [sample_entry 0]; collection := [sample_doc] |})
      as (H & _ & _).
    rewrite (H _ _ eq_refl eq_refl eq_refl). reflexivity.
  - destruct (latest_prefers_durable (failing_env sample_instant)
                {| sensorData := [sample_entry 0]; collection := [sample_doc] |})
      as (_ & H & _).
    rewrite (H _ _ (or_intror (or_introl eq_refl)) eq_refl). reflexivity.
Defined.

(** C5, as stated, fails in its last part: with a document in the
    collection, the local buffer empty, and the connection not ready or
    the query rejected, the answer is 404 although data exists in the
    durable backend. *)
Lemma latest_404_while_collection_holds_document :
  collection {| sensorData := []; collection := [sample_doc] |} = [sample_doc]
  /\ get_sensor_data_latest (offline_env sample_instant)
       {| sensorData := []; collection := [sample_doc] |}
     = (Normal {| status := 404; json := JMessage false "No data available" |},
        {| sensorData := []; collection := [sample_doc] |})
  /\ get_sensor_data_latest (failing_env sample_instant)
       {| sensorData := []; collection := [sample_doc] |}
     = (Normal {| status := 404; json := JMessage false "No data available" |},
        {| sensorData := []; collection := [sample_doc] |}).
Proof. split; [|split]; reflexivity. Qed.

(** C6, where the code departs from the claim: a negative limit is not
    replaced by 10.  [parseInt("-1", 10) || 10] is -1; with three
    readings in the local buffer and the database not connected,
    [limit=-1] is answered with the first two ([slice(0, -1)] drops the
    last entry), where the limit of the specification, 10, gives all
    three; [server.js] does the same; and with three documents in the
    collection and the database answering, the cursor returns one. *)
Lemma negative_limit_is_not_defaulted :
  limit_of (QStr "-1") = Normal (Finite (-1))
  /\ specified_limit "-1" = 10
  /\ get_sensor_data (offline_env sample_instant) (QStr "-1")
       {| sensorData := rev (sample_entries 3); collection := [] |}
     = (Normal {| status := 200; json := JList true (firstn 2 (rev (sample_entries 3))) |},
        {| sensorData := rev (sample_entries 3); collection := [] |})
  /\ firstn 2 (rev (sample_entries 3))
     <> firstn (Z.to_nat (specified_limit "-1")) (rev (sample_entries 3))
  /\ ServerJs.limit_of (QStr "-1") = Normal (Finite (-1))
  /\ ServerJs.get_sensor_data (QStr "-1")
       {| sensorData := rev (sample_entries 3); collection := [] |}
     = (Normal {| status := 200; json := JList true (firstn 2 (rev (sample_entries 3))) |},
        {| sensorData := rev (sample_entries 3); collection := [] |})
  /\ fst (get_sensor_data (live_env sample_instant "") (QStr "-1")
            {| sensorData := []; collection := [sample_doc; sample_doc; sample_doc] |})
     = Normal {| status := 200; json := JList true [reading_of_doc sample_doc] |}.
Proof.
  split; [reflexivity|]. split; [reflexivity|]. split; [reflexivity|].
  split; [vm_compute; discriminate|].
  split; [reflexivity|]. split; reflexivity.
Qed.

(** C7, as amended.  When the database is not connected during a whole
    session that starts with an empty local buffer, N valid creates
    (fields present, and convertible, so that each is stamped with a
    reading) followed by a list request with limit N are answered, each
    create with 200 and its stamped reading, and the list with the 100
    most recent of those readings at most, newest first, which is what
    the local buffer then holds, the collection being untouched; for N
    up to 100 these are exactly the N readings in reverse order of
    creation. *)
Theorem offline_session_lists_creates reqs entries env q st0 :
  Forall2 offline_and_valid reqs entries ->
  isDbConnected env = false ->
  sensorData st0 = [] ->
  limit_of q = Normal (Finite (Z.of_nat (length reqs))) ->
  run_creates reqs st0
  = (Normal (map stored_locally_response entries), insert_all entries st0)
  /\ (exists st',
        creates_then_list reqs env q st0 =
        (Normal {| status := 200; json := JList true (firstn 100 (rev entries)) |}, st')
        /\ sensorData st' = firstn 100 (rev entries)
        /\ collection st' = collection st0)
  /\ ((length reqs <= 100)%nat -> firstn 100 (rev entries) = rev entries).
Proof.
  intros Hreqs Henv Hst Hq.
  split; [now apply run_creates_offline|].
  split.
  - destruct (creates_then_list_offline reqs entries env q st0 Hreqs Henv Hst Hq) as [E Hsd].
    eexists. split; [exact E|]. split; [exact Hsd|]. apply collection_insert_all.
  - intros L. apply firstn_all2.
    rewrite length_rev, <- (Forall2_length _ _ _ Hreqs). exact L.
Qed.

Lemma offline_session_lists_creates_witness :
  fst (creates_then_list (sample_requests 5) (offline_env sample_instant) (QStr "5")
         initial_store)
  = Normal {| status := 200; json := JList true (rev (sample_entries 5)) |}.
Proof.
  destruct (offline_session_lists_creates (sample_requests 5) (sample_entries 5)
              (offline_env sample_instant)
              (QStr "5") initial_store (sample_requests_offline 5) eq_refl eq_refl eq_refl)
    as (_ & (st' & E & _) & H).
  rewrite E, (H ltac:(cbn; lia)). reflexivity.
Defined.

(** C7, as stated, fails for a session of more than 100 creates: after
    101 of them a list request with limit 101 is answered with 100
    readings, the first one created not among them. *)
Lemma session_of_101_creates_lists_100 :
  exists data,
    fst (creates_then_list (sample_requests 101) (offline_env sample_instant) (QStr "101")
           initial_store)
    = Normal {| status := 200; json := JList true data |}
    /\ length data = 100%nat
    /\ data <> rev (sample_entries 101)
    /\ ~ In (sample_entry sample_instant) data.
Proof.
  destruct (creates_then_list_offline (sample_requests 101) (sample_entries 101)
              (offline_env sample_instant)
              (QStr "101") initial_store (sample_requests_offline 101) eq_refl eq_refl eq_refl)
    as [E _].
  eexists. split; [rewrite E; reflexivity|].
  split; [reflexivity|].
  split.
  - intros H. apply (f_equal (@length _)) in H. vm_compute in H. discriminate H.
  - vm_compute. intros Hin.
    repeat (destruct Hin as [Hin|Hin]; [discriminate Hin|]). exact Hin.
Qed.

(** C8.  For a create whose three fields are numbers, the reading
    returned as [latestData] carries exactly those three numbers,
    whichever store took it and in both servers; each field is passed
    through on its own, nothing is computed from another. *)
Theorem create_passes_values_through env body st x y z :
  body !! "waterLevel" = Some (VNum x) ->
  body !! "temperatureCelsius" = Some (VNum y) ->
  body !! "temperatureFahrenheit" = Some (VNum z) ->
  (exists message r st',
      post_sensor_data env body st
      = (Normal {| status := 200; json := JStored true message r |}, st')
      /\ Reading.waterLevel r = x
      /\ Reading.temperatureCelsius r = y
      /\ Reading.temperatureFahrenheit r = z)
  /\ (exists message r st',
      ServerJs.post_sensor_data env body st
      = (Normal {| status := 200; json := JStored true message r |}, st')
      /\ Reading.waterLevel r = x
      /\ Reading.temperatureCelsius r = y
      /\ Reading.temperatureFahrenheit r = z).
Proof.
  intros Hx Hy Hz.
  pose proof (present_VNum body x y z Hx Hy Hz) as P.
  pose proof (entry_of_VNum env body x y z Hx Hy Hz) as E.
  split.
  - destruct (durable_answers env) eqn:D.
    + rewrite (post_durable env body st _ P E D). do 3 eexists.
      split; [reflexivity|]. repeat split.
    + rewrite (post_fallback env body st _ P E D). do 3 eexists.
      split; [reflexivity|]. repeat split.
  - rewrite (ServerJs_post_stored env body st _ P E). do 3 eexists.
    split; [reflexivity|]. repeat split.
Qed.

Lemma create_passes_values_through_witness :
  fst (post_sensor_data (live_env sample_instant "65a1") sample_body initial_store)
  = Normal {| status := 200;
              json := JStored true "Data stored successfully (db)"
                        {| Reading.waterLevel := StringToNumber "12.5";
                           Reading.temperatureCelsius := StringToNumber "28.3";
                           Reading.temperatureFahrenheit := StringToNumber "82.9";
                           Reading.timestamp := "2025-11-03, 00:30:00";
                           Reading.id := "65a1" |} |}.
Proof.
  destruct (create_passes_values_through (live_env sample_instant "65a1") sample_body
              initial_store _ _ _ eq_refl eq_refl eq_refl)
    as [(message & r & st' & E & _) _].
  rewrite E. vm_compute in E. injection E as <- <- _. reflexivity.
Defined.




(** C10.  The two read handlers leave the local buffer, and the whole
    store, as they found it, whatever the buffer holds, whether or not
    the database is connected and whether its query succeeds or is
    rejected; so do the read handlers of [server.js]. *)
Theorem reads_do_not_mutate env q st :
  sensorData (snd (get_sensor_data env q st)) = sensorData st
  /\ snd (get_sensor_data env q st) = st
  /\ sensorData (snd (get_sensor_data_latest env st)) = sensorData st
  /\ snd (get_sensor_data_latest env st) = st
  /\ snd (ServerJs.get_sensor_data q st) = st
  /\ snd (ServerJs.get_sensor_data_latest st) = st.
Proof.
  assert (G : snd (get_sensor_data env q st) = st).
  { destruct (get_outcome env q st) as [[_ ->]|[_ [data ->]]]; reflexivity. }
  assert (S : snd (ServerJs.get_sensor_data q st) = st).
  { destruct (ServerJs.limit_of q) as [limit|e] eqn:E;
      [rewrite (ServerJs_get_spec q st limit E)|rewrite (ServerJs_get_throws q st e E)];
      reflexivity. }
  rewrite G, S, latest_spec, ServerJs_latest_spec.
  repeat split.
Qed.

(* ===================================================================== *)
(** * Further properties of the handlers *)
(* ===================================================================== *)

(** ** One request *)

Lemma conversion_returns env body e :
  entry_of env body = Some e -> conversion_throws body = false.
Proof.
  intros E. destruct (conversion_throws body) eqn:C; [|reflexivity].
  apply (entry_of_None env) in C. congruence.
Qed.

(** A handler either throws, on a request that [throws] tells, leaving
    the store as it was, or answers with a documented response. *)
Lemma handle_outcome r st :
  effect r st (snd (handle r st))
  /\ (if throws r then handle r st = (Throw "TypeError", st)
      else exists resp, fst (handle r st) = Normal resp /\ documented resp).
Proof.
  destruct r as [env body | env q | env]; cbn [handle throws].
  - destruct (fields_present body) eqn:P; cbn [andb].
    + destruct (entry_of env body) as [e|] eqn:E.
      * rewrite (conversion_returns env body e E).
        destruct (durable_answers env) eqn:D.
        -- rewrite (post_durable env body st e P E D). cbn [fst snd]. split.
           ++ now apply (StoredDurably _ _ _ env body e).
           ++ eexists. split; [reflexivity|]. left. split; reflexivity.
        -- rewrite (post_fallback env body st e P E D). cbn [fst snd]. split.
           ++ now apply (StoredLocally _ _ _ env body e).
           ++ eexists. split; [reflexivity|]. left. split; reflexivity.
      * apply entry_of_None in E. rewrite E, (post_throws env body st P E).
        split; [now apply Unchanged|reflexivity].
    + rewrite (post_missing env body st P). split; [now apply Unchanged|].
      eexists. split; [reflexivity|]. right. split; [now left|reflexivity].
  - destruct (get_outcome env q st) as [[-> ->]|[-> [data ->]]];
      (split; [now apply Unchanged|]); [reflexivity|].
    eexists. split; [reflexivity|]. left. split; reflexivity.
  - rewrite latest_spec. split; [now apply Unchanged|].
    eexists. split; [reflexivity|].
    destruct (if durable_answers env then head (collection st) else None);
      [left; split; reflexivity|].
    destruct (sensorData st); [right; split; [now right|reflexivity] | left; split; reflexivity].
Qed.

(** ** Sequences of requests *)

Lemma run_cons r rs st :
  run (r :: rs) st
  = match handle r st with
    | (Normal response, st') => (Normal response :: fst (run rs st'), snd (run rs st'))
    | (Throw e, st') => ([Throw e], st')
    end.
Proof.
  cbn [run]. destruct (handle r st) as [[response|e] st']; [|reflexivity].
  destruct (run rs st') as [outcomes st'']. reflexivity.
Qed.

Lemma snd_run_cons r rs st :
  snd (run (r :: rs) st) = snd (handle r st)
  \/ snd (run (r :: rs) st) = snd (run rs (snd (handle r st))).
Proof.
  rewrite run_cons. destruct (handle r st) as [[response|e] st']; [now right|now left].
Qed.

Section Invariant.

Variable I : Store -> Prop.
Hypothesis I_effect : forall r st st', I st -> effect r st st' -> I st'.

Lemma run_invariant rs st : I st -> I (snd (run rs st)).
Proof using I_effect.
  revert st. induction rs as [|r rs IH]; intros st Hst; [exact Hst|].
  assert (H1 : I (snd (handle r st)))
    by (apply (I_effect r st); [exact Hst|apply handle_outcome]).
  destruct (snd_run_cons r rs st) as [-> | ->]; [exact H1|now apply IH].
Qed.

End Invariant.

(** X1.  Whatever requests arrive, in whatever order and whatever the
    database does during each, every handler ends in one of two ways.
    It throws a TypeError on a create whose fields are present with one
    that cannot be converted to a number, and on a list whose limit
    cannot be converted to a string: the conversions stand before every
    [try], and the run ends there.  On every other request it answers,
    and with a documented response (200 with [success: true], 400 or 404
    with [success: false]); the 500 branches of the handlers are never
    taken. *)
Theorem session_outcomes rs st :
  Forall2 (fun r outcome =>
             if throws r then outcome = Throw "TypeError"
             else exists resp,
                    outcome = Normal resp /\ documented resp /\ status resp <> 500)
          (handled rs) (fst (run rs st)).
Proof.
  revert st. induction rs as [|r rs IH]; intros st; [constructor|].
  rewrite run_cons. cbn [handled].
  destruct (handle_outcome r st) as [_ H].
  destruct (throws r) eqn:T.
  - rewrite H. cbn [fst]. constructor; [|constructor]. now rewrite T.
  - destruct H as (resp & E & Hd).
    destruct (handle r st) as [o st']. cbn [fst] in E. subst o. cbn [fst].
    constructor; [|apply IH]. rewrite T. exists resp.
    split; [reflexivity|]. split; [exact Hd|].
    destruct Hd as [[H _] | [[H | H] _]]; rewrite H; discriminate.
Qed.

Lemma effect_buffer_bounded r st st' :
  (length (sensorData st) <= 100)%nat -> effect r st st' ->
  (length (sensorData st') <= 100)%nat.
Proof.
  intros H [-> | env body e _ _ _ -> | env body e _ _ _ ->]; cbn [sensorData]; auto.
  rewrite length_firstn. lia.
Qed.

(** X2.  The bound of the local buffer is an invariant of the whole API:
    from a store whose buffer has at most 100 entries, any sequence of
    create, list and latest requests, each under any state of the
    database, whether its handler answers or throws, ends in a store
    whose buffer has at most 100 entries. *)
Theorem session_keeps_buffer_bounded rs st :
  (length (sensorData st) <= 100)%nat ->
  (length (sensorData (snd (run rs st))) <= 100)%nat.
Proof. apply (run_invariant _ effect_buffer_bounded). Qed.

Lemma session_keeps_buffer_bounded_witness :
  (length (sensorData
             (snd (run (map (fun r => PostSensorData (fst r) (snd r)) (sample_requests 101)
                        ++ [GetSensorData (offline_env sample_instant)
                              (QObj [("toString", QStr "1")]);
                            GetLatest (failing_env sample_instant)])
                     initial_store))) <= 100)%nat.
Proof.
  apply session_keeps_buffer_bounded. cbn. lia.
Defined.

Lemma sublist_insert_at {A} (k : nat) (x : A) (l : list A) : sublist l (insert_at k x l).
Proof.
  unfold insert_at. rewrite <- (firstn_skipn k l) at 1.
  apply sublist_app; [reflexivity|]. now apply sublist_cons.
Qed.

Lemma length_insert_at {A} (k : nat) (x : A) (l : list A) :
  length (insert_at k x l) = S (length l).
Proof.
  unfold insert_at. rewrite length_app. cbn [length].
  rewrite <- (firstn_skipn k l) at 3. rewrite length_app. lia.
Qed.

Lemma effect_collection r st st' :
  effect r st st' ->
  sublist (collection st) (collection st')
  /\ (length (collection st') <= S (length (collection st)))%nat.
Proof.
  intros [-> | env body e _ _ _ -> | env body e _ _ _ ->]; cbn [collection].
  - split; [reflexivity|lia].
  - split; [apply sublist_insert_at|]. rewrite length_insert_at. lia.
  - split; [reflexivity|lia].
Qed.

(** X3.  The collection only grows: after any sequence of requests the
    documents it held before are all still there, in the order they
    had, among the ones created since, and at most one document was
    added per request; no handler updates or deletes a document. *)
Theorem session_collection_append_only rs st :
  sublist (collection st) (collection (snd (run rs st)))
  /\ (length (collection (snd (run rs st))) <= length (collection st) + length rs)%nat.
Proof.
  revert st. induction rs as [|r rs IH]; intros st.
  - cbn [run snd length]. split; [reflexivity|lia].
  - destruct (handle_outcome r st) as [He _].
    apply effect_collection in He as [S1 L1].
    destruct (IH (snd (handle r st))) as [S2 L2]. cbn [length].
    destruct (snd_run_cons r rs st) as [-> | ->].
    + split; [exact S1|lia].
    + split; [now transitivity (collection (snd (handle r st)))|lia].
Qed.

Lemma In_firstn {A} (n : nat) (l : list A) (x : A) : In x (firstn n l) -> In x l.
Proof.
  intros H. rewrite <- (firstn_skipn n l). apply in_or_app. now left.
Qed.

Lemma run_buffer_provenance rs st e :
  In e (sensorData (snd (run rs st))) ->
  In e (sensorData st) \/ exists r, In r rs /\ created_by r e.
Proof.
  revert st. induction rs as [|r rs IH]; intros st; [now left|].
  assert (Step : In e (sensorData (snd (handle r st))) ->
                 In e (sensorData st) \/ exists r', In r' (r :: rs) /\ created_by r' e).
  { intros H1. destruct (handle_outcome r st) as [He _].
    destruct He as [E | env body e0 _ _ _ E | env body e0 -> P Ee E];
      rewrite E in H1; cbn [sensorData] in H1; [now left | now left |].
    apply In_firstn in H1. destruct H1 as [<- | H1]; [|now left].
    right. exists (PostSensorData env body). split; [now left|].
    now exists env, body. }
  destruct (snd_run_cons r rs st) as [-> | ->]; [exact Step|].
  intros He'. destruct (IH _ He') as [H1 | (r' & Hin & Hc)]; [now apply Step|].
  right. exists r'. split; [now right|assumption].
Qed.

(** X4.  Every reading in the local buffer was put there by a create:
    after any sequence of requests, an entry of the buffer was in the
    buffer at the start or is the stamped entry of a create request of
    the sequence whose three fields were present and convertible.  No
    read request, no rejected create and no handler that throws adds to
    the buffer. *)
Theorem session_buffer_provenance rs st :
  Forall (fun e => In e (sensorData st) \/ exists r, In r rs /\ created_by r e)
         (sensorData (snd (run rs st))).
Proof. apply List.Forall_forall. intros e. apply run_buffer_provenance. Qed.

(** ** Writes followed by reads *)

Lemma Number_of_integer_exact n : Z.abs n < 2 ^ 53 -> Number_of_integer n = Finite n.
Proof.
  intros H. unfold Number_of_integer.
  destruct (Z.ltb_spec (Z.abs n) (2 ^ 53)); [reflexivity|lia].
Qed.

Lemma Number_of_integer_zero n : Number_of_integer n = Finite 0 -> n = 0.
Proof.
  unfold Number_of_integer.
  destruct (Z.ltb_spec (Z.abs n) (2 ^ 53)) as [_|Hbig]; [now intros [= ->]|].
  set (e := Z.log2 (Z.abs n) - 52).
  set (q := Z.abs n / 2 ^ e).
  set (q' := if 2 * (Z.abs n mod 2 ^ e) <? 2 ^ e then q
             else if 2 ^ e <? 2 * (Z.abs n mod 2 ^ e) then q + 1
             else if Z.even q then q else q + 1).
  assert (He : 0 <= e).
  { subst e. assert (53 <= Z.log2 (Z.abs n)); [|lia].
    apply Z.log2_le_pow2; lia. }
  assert (Hp : 0 < 2 ^ e) by (apply Z.pow_pos_nonneg; lia).
  assert (Hq : 0 < q).
  { subst q. apply Z.div_str_pos. split; [exact Hp|].
    assert (2 ^ Z.log2 (Z.abs n) <= Z.abs n) by (apply Z.log2_spec; lia).
    assert (2 ^ e <= 2 ^ Z.log2 (Z.abs n)); [|lia].
    apply Z.pow_le_mono_r; lia. }
  assert (Hq' : 0 < q').
  { subst q'. destruct (_ <? _); [lia|]. destruct (_ <? _); [lia|].
    destruct (Z.even q); lia. }
  assert (0 < q' * 2 ^ e) by (apply Z.mul_pos_pos; lia).
  destruct (_ <=? _); [destruct (n <? 0); discriminate|].
  destruct (n <? 0); intros [= E]; lia.
Qed.

Lemma or_default_nonzero x : or_default x 10 <> Finite 0.
Proof.
  destruct x as [[n| |]|]; cbn; try discriminate.
  destruct (Z.eqb_spec n 0); [discriminate|]. intros [= E]. contradiction.
Qed.

Lemma limit_of_nonzero q : limit_of q <> Normal (Finite 0).
Proof.
  unfold limit_of. destruct (qs_ToString q); [|discriminate].
  intros [= E]. now apply or_default_nonzero in E.
Qed.

Lemma cursor_limit_cons {A} (n : Z) (x : A) (l : list A) :
  n <> 0 -> cursor_limit n (x :: l) = x :: firstn (Z.to_nat (Z.abs n) - 1) l.
Proof.
  intros Hn. unfold cursor_limit. destruct (Z.eqb_spec n 0); [contradiction|].
  destruct (Z.to_nat (Z.abs n)) as [|k] eqn:E; [lia|].
  cbn [firstn]. now rewrite Nat.sub_succ, Nat.sub_0_r.
Qed.

Lemma insert_at_0 {A} (x : A) (l : list A) : insert_at 0 x l = x :: l.
Proof. reflexivity. Qed.

(** X5.  A create that the durable store takes, and that is the latest
    of the collection by [createdAt], is what the next reads return
    while the store answers: the latest-reading request gives exactly
    the reading the create returned, and a list request, whatever the
    integer its limit is read as, has that reading first. *)
Theorem durable_create_is_read_back env body env2 q st entry n :
  fields_present body = true ->
  entry_of env body = Some entry ->
  durable_answers env = true ->
  later_documents env = 0%nat ->
  durable_answers env2 = true ->
  database_limit q n ->
  exists created st' rest,
    post_sensor_data env body st
    = (Normal {| status := 200;
                 json := JStored true "Data stored successfully (db)" created |}, st')
    /\ created = reading_of_doc (doc_of env entry)
    /\ get_sensor_data_latest env2 st'
       = (Normal {| status := 200; json := JOne true created |}, st')
    /\ get_sensor_data env2 q st'
       = (Normal {| status := 200; json := JList true (created :: rest) |}, st').
Proof.
  intros P E D L D2 [Hq _]. rewrite (post_durable env body st entry P E D), L.
  do 3 eexists. split; [reflexivity|]. split; [reflexivity|]. split.
  - rewrite latest_spec, D2. reflexivity.
  - rewrite (get_durable env2 q _ n Hq D2). cbn [collection].
    rewrite insert_at_0, cursor_limit_cons; [reflexivity|].
    intros ->. now apply (limit_of_nonzero q).
Qed.

Lemma durable_create_is_read_back_witness :
  exists created st' rest,
    post_sensor_data (live_env sample_instant "65a1") sample_body initial_store
    = (Normal {| status := 200;
                 json := JStored true "Data stored successfully (db)" created |}, st')
    /\ created = {| Reading.waterLevel := StringToNumber "12.5";
                    Reading.temperatureCelsius := StringToNumber "28.3";
                    Reading.temperatureFahrenheit := StringToNumber "82.9";
                    Reading.timestamp := "2025-11-03, 00:30:00";
                    Reading.id := "65a1" |}
    /\ get_sensor_data_latest (live_env (sample_instant + 5) "") st'
       = (Normal {| status := 200; json := JOne true created |}, st')
    /\ get_sensor_data (live_env (sample_instant + 5) "") (QStr "-4") st'
       = (Normal {| status := 200; json := JList true (created :: rest) |}, st').
Proof.
  destruct (durable_create_is_read_back (live_env sample_instant "65a1") sample_body
              (live_env (sample_instant + 5) "") (QStr "-4") initial_store
              {| Reading.waterLevel := StringToNumber "12.5";
                 Reading.temperatureCelsius := StringToNumber "28.3";
                 Reading.temperatureFahrenheit := StringToNumber "82.9";
                 Reading.timestamp := "2025-11-03, 00:30:00";
                 Reading.id := "1762110000000" |} (-4)
              eq_refl ltac:(vm_compute; reflexivity) eq_refl eq_refl eq_refl
              ltac:(split; [vm_compute; reflexivity | vm_compute; reflexivity]))
    as (created & st' & rest & E & C & Hl & Hg).
  exists created, st', rest. split; [exact E|]. split; [|split; [exact Hl|exact Hg]].
  rewrite C. reflexivity.
Defined.

Lemma slice_to_cons {A} (x : A) (l : list A) (limit : integral) :
  positive_limit limit = true -> exists rest, slice_to (x :: l) limit = x :: rest.
Proof.
  destruct limit as [n| |]; cbn [positive_limit slice_to]; intros H; [| |discriminate H].
  - apply Z.ltb_lt in H. rewrite slice_front by lia.
    destruct (Z.to_nat n) as [|k] eqn:E; [lia|]. cbn [firstn]. now eexists.
  - rewrite slice_front by lia. rewrite Nat2Z.id. cbn [length firstn]. now eexists.
Qed.

(** X6.  A create that falls back to the local buffer is what the next
    reads return as long as the durable store gives nothing: the
    latest-reading request returns the stamped entry when the store does
    not answer or its collection is empty, and a list request with a
    positive limit, answered from the buffer, has the entry first. *)
Theorem fallback_create_is_read_back env body env2 q st entry :
  fields_present body = true ->
  entry_of env body = Some entry ->
  durable_answers env = false ->
  exists st',
    post_sensor_data env body st
    = (Normal {| status := 200;
                 json := JStored true "Data stored locally (fallback)" entry |}, st')
    /\ (durable_answers env2 = false \/ collection st = [] ->
        get_sensor_data_latest env2 st'
        = (Normal {| status := 200; json := JOne true entry |}, st'))
    /\ (forall limit,
          durable_answers env2 = false -> limit_of q = Normal limit ->
          positive_limit limit = true ->
          exists rest,
            get_sensor_data env2 q st'
            = (Normal {| status := 200; json := JList true (entry :: rest) |}, st')).
Proof.
  intros P E D. rewrite (post_fallback env body st entry P E D).
  eexists. split; [reflexivity|]. split.
  - intros H. rewrite latest_spec. cbn [collection sensorData firstn].
    destruct H as [-> | ->]; [reflexivity|].
    destruct (durable_answers env2); reflexivity.
  - intros limit D2 Hq Hpos. rewrite (get_fallback env2 q _ limit Hq D2).
    cbn [sensorData firstn].
    destruct (slice_to_cons entry (firstn 99 (sensorData st)) limit Hpos) as [rest ->].
    now exists rest.
Qed.

Lemma fallback_create_is_read_back_witness :
  exists st',
    post_sensor_data (failing_env sample_instant) sample_body initial_store
    = (Normal {| status := 200;
                 json := JStored true "Data stored locally (fallback)"
                           (sample_entry sample_instant) |}, st')
    /\ get_sensor_data_latest (live_env (sample_instant + 5) "") st'
       = (Normal {| status := 200; json := JOne true (sample_entry sample_instant) |}, st').
Proof.
  destruct (fallback_create_is_read_back (failing_env sample_instant) sample_body
              (live_env (sample_instant + 5) "") QUndefined initial_store
              (sample_entry sample_instant)
              eq_refl ltac:(vm_compute; reflexivity) eq_refl)
    as (st' & E & H & _).
  exists st'. split; [exact E|]. apply H. now right.
Defined.

(** X7.  The two read handlers treat an empty collection differently.
    When the durable store answers and holds no document while the local
    buffer has entries, the list request is answered with the empty list
    (the buffer is not consulted), and the latest-reading request with
    the front entry of the buffer. *)
Theorem empty_collection_list_and_latest_differ env q st first rest n :
  durable_answers env = true ->
  database_limit q n ->
  collection st = [] ->
  sensorData st = first :: rest ->
  get_sensor_data env q st = (Normal {| status := 200; json := JList true [] |}, st)
  /\ get_sensor_data_latest env st
     = (Normal {| status := 200; json := JOne true first |}, st).
Proof.
  intros D [Hq _] Hc Hs. split.
  - rewrite (get_durable env q st n Hq D), Hc. unfold cursor_limit.
    destruct (_ =? _); [|rewrite firstn_nil]; reflexivity.
  - rewrite latest_spec, D, Hc, Hs. reflexivity.
Qed.

Lemma empty_collection_list_and_latest_differ_witness :
  get_sensor_data (live_env sample_instant "") QUndefined
    {| sensorData := sample_entries 1; collection := [] |}
  = (Normal {| status := 200; json := JList true [] |},
     {| sensorData := sample_entries 1; collection := [] |})
  /\ get_sensor_data_latest (live_env sample_instant "")
       {| sensorData := sample_entries 1; collection := [] |}
     = (Normal {| status := 200; json := JOne true (sample_entry sample_instant) |},
        {| sensorData := sample_entries 1; collection := [] |}).
Proof.
  apply (empty_collection_list_and_latest_differ (live_env sample_instant "") QUndefined
           {| sensorData := sample_entries 1; collection := [] |}
           (sample_entry sample_instant) [] 10);
    [reflexivity | split; [reflexivity | vm_compute; reflexivity] | reflexivity
    | reflexivity].
Defined.

(** X8.  Readings of the local buffer are not served while the durable
    store answers with documents, and are never copied into it: after a
    create that fell back to the buffer, a list request that the store
    answers gets the same response as before that create, and so does a
    latest-reading request when the collection is not empty; the
    collection is what it was. *)
Theorem fallback_reading_hidden_while_durable_answers env body env2 q st entry n :
  fields_present body = true ->
  entry_of env body = Some entry ->
  durable_answers env = false ->
  durable_answers env2 = true ->
  database_limit q n ->
  exists resp st',
    post_sensor_data env body st = (Normal resp, st')
    /\ collection st' = collection st
    /\ fst (get_sensor_data env2 q st') = fst (get_sensor_data env2 q st)
    /\ (collection st <> [] ->
        fst (get_sensor_data_latest env2 st') = fst (get_sensor_data_latest env2 st)).
Proof.
  intros P E D D2 [Hq _]. rewrite (post_fallback env body st entry P E D).
  do 2 eexists. split; [reflexivity|]. split; [reflexivity|]. split.
  - now rewrite !(get_durable env2 q _ n Hq D2).
  - intros Hne. rewrite !latest_spec, D2. cbn [collection fst].
    destruct (collection st); [contradiction|reflexivity].
Qed.

Lemma fallback_reading_hidden_while_durable_answers_witness :
  exists resp st',
    post_sensor_data (failing_env sample_instant) sample_body
      {| sensorData := []; collection := [sample_doc] |}
    = (Normal resp, st')
    /\ fst (get_sensor_data_latest (live_env (sample_instant + 5) "") st')
       = Normal {| status := 200; json := JOne true (reading_of_doc sample_doc) |}.
Proof.
  destruct (fallback_reading_hidden_while_durable_answers (failing_env sample_instant)
              sample_body (live_env (sample_instant + 5) "") QUndefined
              {| sensorData := []; collection := [sample_doc] |}
              (sample_entry sample_instant) 10
              eq_refl ltac:(vm_compute; reflexivity) eq_refl eq_refl
              ltac:(split; [reflexivity | vm_compute; reflexivity]))
    as (resp & st' & E & _ & _ & H).
  exists resp, st'. split; [exact E|]. rewrite H by discriminate. reflexivity.
Defined.

(** X9.  A list request whose limit is read is always answered with a
    run of entries from the newest end of the store it consults, in the
    store's order: a positive limit is an upper bound on the number of
    entries and a limit of at least the size of the store returns all of
    it, and the durable store never returns more entries than the
    absolute value of the limit.  The limit is never zero. *)
Theorem list_returns_newest_prefix env q st limit :
  limit_of q = Normal limit ->
  (durable_answers env = true -> exists n, database_limit q n) ->
  exists data rest,
    get_sensor_data env q st = (Normal {| status := 200; json := JList true data |}, st)
    /\ (if durable_answers env then map reading_of_doc (collection st) else sensorData st)
       = (data ++ rest)%list
    /\ limit <> Finite 0
    /\ (forall n, limit = Finite n -> 0 < n ->
        Z.of_nat (length data) <= n
        /\ (Z.of_nat (length (data ++ rest)%list) <= n -> rest = []))
    /\ (forall n, limit = Finite n -> durable_answers env = true ->
        Z.of_nat (length data) <= Z.abs n).
Proof.
  intros Hq Hdb.
  assert (Hnz : limit <> Finite 0)
    by (intros ->; now apply (limit_of_nonzero q)).
  destruct (durable_answers env) eqn:D.
  - destruct (Hdb eq_refl) as (n & Hn & _).
    assert (limit = Finite n) as -> by congruence.
    rewrite (get_durable env q st n Hq D). unfold cursor_limit.
    destruct (Z.eqb_spec n 0); [subst n; contradiction|].
    set (k := Z.to_nat (Z.abs n)).
    exists (map reading_of_doc (firstn k (collection st))),
           (map reading_of_doc (skipn k (collection st))).
    split; [reflexivity|].
    split; [now rewrite <- map_app, firstn_skipn|].
    split; [assumption|].
    rewrite length_app, !length_map, length_firstn, length_skipn.
    split; [|intros m [= <-] _; lia].
    intros m [= <-] Hpos. split; [lia|].
    intros Hall. replace (skipn k (collection st)) with (@nil Doc.t); [reflexivity|].
    symmetry. apply skipn_all2. lia.
  - rewrite (get_fallback env q st limit Hq D).
    assert (E : exists k, slice_to (sensorData st) limit = firstn k (sensorData st)
                          /\ (forall n, limit = Finite n -> 0 < n -> k = Z.to_nat n)).
    { destruct limit as [n| |]; cbn [slice_to].
      - destruct (Z.ltb_spec n 0).
        + eexists. split; [now apply slice_front_negative|]. intros m [= <-]. lia.
        + eexists. split; [apply slice_front; lia|]. now intros m [= <-].
      - eexists. split; [apply slice_front; lia|]. discriminate.
      - eexists. split; [apply slice_front; lia|]. discriminate. }
    destruct E as (k & -> & Hk).
    exists (firstn k (sensorData st)), (skipn k (sensorData st)).
    split; [reflexivity|].
    split; [now rewrite firstn_skipn|].
    split; [assumption|].
    rewrite length_app, length_firstn, length_skipn.
    split; [|discriminate].
    intros n Hn Hpos. rewrite (Hk n Hn Hpos). split; [lia|].
    intros Hall. apply skipn_all2. lia.
Qed.

Lemma list_returns_newest_prefix_witness :
  exists data rest,
    get_sensor_data (offline_env sample_instant) (QStr "2")
      {| sensorData := rev (sample_entries 5); collection := [] |}
    = (Normal {| status := 200; json := JList true data |},
       {| sensorData := rev (sample_entries 5); collection := [] |})
    /\ rev (sample_entries 5) = (data ++ rest)%list
    /\ length data = 2%nat.
Proof.
  destruct (list_returns_newest_prefix (offline_env sample_instant) (QStr "2")
              {| sensorData := rev (sample_entries 5); collection := [] |} (Finite 2)
              eq_refl ltac:(discriminate))
    as (data & rest & E & Hs & _ & _).
  exists data, rest. split; [exact E|]. split; [exact Hs|].
  vm_compute in E. injection E as <-. reflexivity.
Defined.

(** X16.  The limit of a list request is 10 when the parameter is
    absent, when its text does not start with an integer, and when that
    integer is zero; any other integer below 2^53 in absolute value is
    the limit, in both servers when it is not written with a [0x]
    prefix.  An empty store is answered with the empty list: the local
    buffer under any limit, the collection under a limit the database
    takes. *)
Theorem list_limit_defaults env q st :
  limit_of QUndefined = Normal (Finite 10)
  /\ ServerJs.limit_of QUndefined = Normal (Finite 10)
  /\ (qs_raises_TypeError q = false ->
      (parseInt_mathInt (qs_text q) 10 = None \/ parseInt_mathInt (qs_text q) 10 = Some 0 ->
       limit_of q = Normal (Finite 10))
      /\ (parseInt_mathInt (qs_text q) 0 = None \/ parseInt_mathInt (qs_text q) 0 = Some 0 ->
          ServerJs.limit_of q = Normal (Finite 10))
      /\ (forall n, parseInt_mathInt (qs_text q) 10 = Some n -> n <> 0 -> Z.abs n < 2 ^ 53 ->
                    limit_of q = Normal (Finite n))
      /\ (forall n, parseInt_mathInt (qs_text q) 0 = Some n -> n <> 0 -> Z.abs n < 2 ^ 53 ->
                    ServerJs.limit_of q = Normal (Finite n)))
  /\ (forall limit,
        limit_of q = Normal limit -> durable_answers env = false -> sensorData st = [] ->
        get_sensor_data env q st = (Normal {| status := 200; json := JList true [] |}, st))
  /\ (forall limit,
        ServerJs.limit_of q = Normal limit -> sensorData st = [] ->
        ServerJs.get_sensor_data q st
        = (Normal {| status := 200; json := JList true [] |}, st))
  /\ (forall n,
        database_limit q n -> durable_answers env = true -> collection st = [] ->
        get_sensor_data env q st = (Normal {| status := 200; json := JList true [] |}, st)).
Proof.
  assert (Hnil : forall limit, slice_to (@nil Reading.t) limit = [])
    by (intros [n| |]; apply slice_nil).
  split; [reflexivity|]. split; [reflexivity|]. split; [|split; [|split]].
  - intros R. unfold limit_of, ServerJs.limit_of, qs_ToString, parseInt. rewrite R.
    split; [intros [-> | ->]; reflexivity|].
    split; [intros [-> | ->]; reflexivity|].
    split; intros n -> Hn Hb; rewrite Number_of_integer_exact by exact Hb;
      cbn [or_default]; destruct (Z.eqb_spec n 0); congruence.
  - intros limit Hq D Hs. rewrite (get_fallback env q st limit Hq D), Hs, Hnil. reflexivity.
  - intros limit Hq Hs. rewrite (ServerJs_get_spec q st limit Hq), Hs, Hnil. reflexivity.
  - intros n [Hq _] D Hc. rewrite (get_durable env q st n Hq D), Hc.
    unfold cursor_limit. destruct (_ =? _); [|rewrite firstn_nil]; reflexivity.
Qed.

(** ** Timestamps and identifiers *)

Lemma digit_char_inj a b :
  0 <= a <= 9 -> 0 <= b <= 9 -> digit_char a = digit_char b -> a = b.
Proof.
  intros Ha Hb H. unfold digit_char, char in H.
  apply (f_equal N_of_ascii) in H.
  rewrite !N_ascii_embedding in H by lia. lia.
Qed.

Lemma pad2_inj a b : 0 <= a < 100 -> 0 <= b < 100 -> pad2 a = pad2 b -> a = b.
Proof.
  intros Ha Hb H. unfold pad2 in H. injection H as H1 H0.
  apply digit_char_inj in H1, H0; try CalendarFacts.divmod.
Qed.

Lemma four_digits x :
  0 <= x < 10000 ->
  x = 1000 * (x / 1000 mod 10) + 100 * (x / 100 mod 10) + 10 * (x / 10 mod 10) + x mod 10.
Proof. intros H. CalendarFacts.divmod. Qed.

Lemma digit_range x k : 0 <= x / k mod 10 <= 9.
Proof. pose proof (Z.mod_pos_bound (x / k) 10). lia. Qed.

Lemma pad4_inj a b : 0 <= a < 10000 -> 0 <= b < 10000 -> pad4 a = pad4 b -> a = b.
Proof.
  intros Ha Hb H. unfold pad4, pad2 in H. injection H as H3 H2 H1 H0.
  apply digit_char_inj in H3, H2, H1; try apply digit_range.
  apply digit_char_inj in H0;
    [|pose proof (Z.mod_pos_bound a 10); lia|pose proof (Z.mod_pos_bound b 10); lia].
  rewrite (four_digits a Ha), (four_digits b Hb). lia.
Qed.

Lemma shown_hour_inj hc a b :
  0 <= a < 24 -> 0 <= b < 24 -> Intl.shown_hour hc a = Intl.shown_hour hc b -> a = b.
Proof.
  intros Ha Hb. destruct hc; cbn; [auto|].
  destruct (Z.eqb_spec a 0), (Z.eqb_spec b 0); lia.
Qed.

Lemma shown_hour_range hc a : 0 <= a < 24 -> 0 <= Intl.shown_hour hc a < 100.
Proof. intros Ha. destruct hc; cbn; [lia|]. destruct (Z.eqb_spec a 0); lia. Qed.

Lemma rendered_timestamp_inj hc y1 m1 d1 h1 i1 s1 y2 m2 d2 h2 i2 s2 :
  0 <= y1 < 10000 -> 0 <= y2 < 10000 -> 0 <= m1 < 100 -> 0 <= m2 < 100 ->
  0 <= d1 < 100 -> 0 <= d2 < 100 -> 0 <= h1 < 24 -> 0 <= h2 < 24 ->
  0 <= i1 < 100 -> 0 <= i2 < 100 -> 0 <= s1 < 100 -> 0 <= s2 < 100 ->
  rendered_timestamp hc
    {| Intl.date := {| Calendar.year := y1; Calendar.month := m1; Calendar.day := d1 |};
       Intl.hour := h1; Intl.minute := i1; Intl.second := s1 |}
  = rendered_timestamp hc
      {| Intl.date := {| Calendar.year := y2; Calendar.month := m2; Calendar.day := d2 |};
         Intl.hour := h2; Intl.minute := i2; Intl.second := s2 |} ->
  y1 = y2 /\ m1 = m2 /\ d1 = d2 /\ h1 = h2 /\ i1 = i2 /\ s1 = s2.
Proof.
  intros Hy1 Hy2 Hm1 Hm2 Hd1 Hd2 Hh1 Hh2 Hi1 Hi2 Hs1 Hs2 E.
  pose proof (shown_hour_range hc h1 Hh1) as R1.
  pose proof (shown_hour_range hc h2 Hh2) as R2.
  unfold rendered_timestamp in E.
  cbn [Intl.date Intl.hour Intl.minute Intl.second Calendar.year Calendar.month
       Calendar.day] in E.
  assert (Ey : pad4 y1 = pad4 y2 /\ pad2 m1 = pad2 m2 /\ pad2 d1 = pad2 d2
               /\ pad2 (Intl.shown_hour hc h1) = pad2 (Intl.shown_hour hc h2)
               /\ pad2 i1 = pad2 i2 /\ pad2 s1 = pad2 s2).
  { unfold pad4, pad2 in *. rewrite ?append_cons, ?append_nil in E.
    injection E as -> -> -> -> -> -> -> -> -> -> -> -> -> ->. repeat split. }
  destruct Ey as (Ey & Em & Ed & Eh & Ei & Es).
  apply pad4_inj in Ey; [|lia|lia]. apply pad2_inj in Em, Ed, Eh, Ei, Es; try lia.
  apply shown_hour_inj in Eh; [|assumption|assumption].
  repeat split; assumption.
Qed.

Lemma valid_date_day c : Calendar.valid_date c -> 1 <= Calendar.month c <= 12 /\ 1 <= Calendar.day c <= 31.
Proof.
  intros [Hm Hd]. split; [exact Hm|].
  unfold Calendar.days_in_month in Hd.
  repeat match type of Hd with context [if ?b then _ else _] => destruct b end; lia.
Qed.

Lemma wall_clock_same_second t1 t2 :
  t1 / 1000 = t2 / 1000 -> Intl.wall_clock t1 = Intl.wall_clock t2.
Proof. intros E. unfold Intl.wall_clock. rewrite E. reflexivity. Qed.

Lemma same_timestamp_same_fields hc f1 f2 :
  plausible f1 -> plausible f2 ->
  rendered_timestamp hc f1 = rendered_timestamp hc f2 -> f1 = f2.
Proof.
  intros (V1 & Hy1 & Hh1 & Hm1 & Hs1) (V2 & Hy2 & Hh2 & Hm2 & Hs2) E.
  apply valid_date_day in V1, V2.
  destruct f1 as [[y1 m1 d1] h1 i1 s1]. destruct f2 as [[y2 m2 d2] h2 i2 s2].
  cbn [Intl.date Intl.hour Intl.minute Intl.second Calendar.year Calendar.month
       Calendar.day] in *.
  apply rendered_timestamp_inj in E; try lia.
  destruct E as (-> & -> & -> & -> & -> & ->). reflexivity.
Qed.

(** X10.  The timestamp has the resolution of one second and loses
    nothing above it: for instants from the epoch through the year 9999,
    two clock readings are stamped with the same string exactly when
    they fall in the same second. *)
Theorem timestamp_same_second hc t1 t2 :
  0 <= t1 < year_10000 ->
  0 <= t2 < year_10000 ->
  getISTDateTime hc t1 = getISTDateTime hc t2 <-> t1 / 1000 = t2 / 1000.
Proof.
  intros H1 H2. rewrite !getISTDateTime_rendered by assumption. split.
  - intros E.
    pose proof (wall_clock_facts t1 H1) as F1. pose proof (wall_clock_facts t2 H2) as F2.
    cbv zeta in F1, F2.
    assert (W : Intl.wall_clock t1 = Intl.wall_clock t2).
    { apply (same_timestamp_same_fields hc);
        [unfold plausible; tauto | unfold plausible; tauto | exact E]. }
    destruct F1 as (_ & _ & _ & _ & _ & L1). destruct F2 as (_ & _ & _ & _ & _ & L2).
    rewrite W in L1. rewrite L1 in L2. clear - L2.
    unfold Intl.kolkata_offset in L2. lia.
  - intros E. now rewrite (wall_clock_same_second t1 t2 E).
Qed.

Lemma timestamp_same_second_witness :
  getISTDateTime Intl.h24 sample_instant = getISTDateTime Intl.h24 (sample_instant + 999)
  /\ getISTDateTime Intl.h24 sample_instant <> getISTDateTime Intl.h24 (sample_instant + 1000).
Proof.
  split.
  - apply timestamp_same_second; [unfold year_10000, sample_instant; lia ..|reflexivity].
  - intros H. apply timestamp_same_second in H;
      [discriminate H | unfold year_10000, sample_instant; lia ..].
Defined.

(** ** Decimal strings read back *)

Lemma digit_value_digit_char v : 0 <= v <= 9 -> digit_value 10 (digit_char v) = Some v.
Proof.
  intros H.
  assert (E : v = 0 \/ v = 1 \/ v = 2 \/ v = 3 \/ v = 4 \/ v = 5 \/ v = 6 \/ v = 7
              \/ v = 8 \/ v = 9) by lia.
  repeat (destruct E as [-> | E]; [reflexivity|]). subst v. reflexivity.
Qed.

Lemma digit_value_not_digit c : is_digit c = false -> digit_value 10 c = None.
Proof.
  unfold is_digit, digit_value. intros ->.
  repeat match goal with |- context [if ?b then _ else _] => destruct b eqn:? end;
    try reflexivity; lia.
Qed.

Lemma read_digits_stop rest a c :
  starts_without_digit rest = true -> read_digits 10 rest a c = (a, c, rest).
Proof.
  destruct rest as [|x rest]; [reflexivity|]. cbn [starts_without_digit read_digits].
  intros H. apply negb_true_iff in H. now rewrite (digit_value_not_digit x H).
Qed.

Lemma dec_digits_app fuel n acc rest :
  dec_digits fuel n acc ++ rest = dec_digits fuel n (acc ++ rest).
Proof.
  revert n acc. induction fuel as [|fuel IH]; intros n acc; [reflexivity|].
  cbn [dec_digits]. destruct (n / 10 =? 0); [reflexivity|]. now rewrite IH.
Qed.

Lemma read_digits_dec_digits fuel n acc :
  0 <= n < 10 ^ Z.of_nat (S fuel) ->
  exists d, 0 < d /\
    forall a c, read_digits 10 (dec_digits (S fuel) n acc) a c
                = read_digits 10 acc (a * 10 ^ d + n) (c + d).
Proof.
  revert n acc. induction fuel as [|fuel IH]; intros n acc Hn.
  - exists 1. split; [lia|]. intros a c.
    assert (Hq : n / 10 = 0) by (change (10 ^ Z.of_nat 1) with 10 in Hn; CalendarFacts.divmod).
    assert (Hm : n mod 10 = n) by CalendarFacts.divmod.
    cbn [dec_digits]. rewrite Hq, Hm. cbn [Z.eqb read_digits].
    rewrite digit_value_digit_char by (change (10 ^ Z.of_nat 1) with 10 in Hn; lia).
    f_equal; lia.
  - cbn [dec_digits]. destruct (Z.eqb_spec (n / 10) 0) as [Hq|Hq].
    + exists 1. split; [lia|]. intros a c. cbn [read_digits].
      rewrite digit_value_digit_char by CalendarFacts.divmod.
      f_equal. CalendarFacts.divmod.
    + assert (Hn' : 0 <= n / 10 < 10 ^ Z.of_nat (S fuel)).
      { rewrite (Nat2Z.inj_succ (S fuel)), Z.pow_succ_r in Hn by lia.
        CalendarFacts.divmod. }
      destruct (IH (n / 10) (String (digit_char (n mod 10)) acc) Hn') as (d & Hd & H).
      exists (d + 1). split; [lia|]. intros a c.
      rewrite H. cbn [read_digits].
      rewrite digit_value_digit_char by CalendarFacts.divmod.
      rewrite Z.pow_add_r, Z.pow_1_r by lia. f_equal; [|lia].
      pose proof (Z.div_mod n 10 ltac:(lia)) as Hdm.
      set (P := 10 ^ d). set (q := n / 10) in *. set (r := n mod 10) in *.
      clearbody P q r. lia.
Qed.

Lemma enough_fuel n : 0 <= n -> n < 10 ^ Z.of_nat (S (Z.to_nat (Z.log2 n))).
Proof.
  intros Hn. pose proof (Z.log2_nonneg n) as Hl.
  rewrite Nat2Z.inj_succ, Z2Nat.id by lia.
  destruct (Z.eq_dec n 0) as [-> | Hnz]; [cbn; lia|].
  pose proof (Z.log2_spec n ltac:(lia)) as [_ Hlt].
  eapply Z.lt_le_trans; [exact Hlt|].
  apply Z.pow_le_mono_l. lia.
Qed.

Lemma dec_digits_head fuel n acc :
  exists v s, 0 <= v <= 9 /\ dec_digits (S fuel) n acc = String (digit_char v) s.
Proof.
  revert n acc. induction fuel as [|fuel IH]; intros n acc.
  - exists (n mod 10), acc. split; [CalendarFacts.divmod|].
    cbn [dec_digits]. destruct (_ =? _); reflexivity.
  - cbn [dec_digits]. destruct (n / 10 =? 0).
    + exists (n mod 10), acc. split; [CalendarFacts.divmod|reflexivity].
    + apply IH.
Qed.

(** In radix 10 no prefix is stripped: after white space and sign the
    digits are read as they stand. *)
Lemma parseInt_digits v s :
  0 <= v <= 9 ->
  parseInt_mathInt (String (digit_char v) s) 10
  = (let '(x, k, _) := read_digits 10 (String (digit_char v) s) 0 0 in
     if k =? 0 then None else Some x)
  /\ parseInt_mathInt (String "-" (String (digit_char v) s)) 10
  = (let '(x, k, _) := read_digits 10 (String (digit_char v) s) 0 0 in
     if k =? 0 then None else Some (- x)).
Proof.
  intros H.
  assert (E : v = 0 \/ v = 1 \/ v = 2 \/ v = 3 \/ v = 4 \/ v = 5 \/ v = 6 \/ v = 7
              \/ v = 8 \/ v = 9) by lia.
  repeat (destruct E as [-> | E]; [split; try reflexivity; destruct s; reflexivity|]).
  subst v. split; reflexivity.
Qed.

Lemma parseInt_Z_to_string n rest :
  starts_without_digit rest = true -> parseInt_mathInt (Z_to_string n ++ rest) 10 = Some n.
Proof.
  intros Hr. unfold Z_to_string.
  destruct (Z.ltb_spec n 0) as [Hneg|Hpos].
  - rewrite append_cons, dec_digits_app, append_nil.
    destruct (dec_digits_head (Z.to_nat (Z.log2 (- n))) (- n) rest) as (v & s & Hv & E).
    pose proof (parseInt_digits v s Hv) as [_ P]. rewrite E, P, <- E.
    destruct (read_digits_dec_digits (Z.to_nat (Z.log2 (- n))) (- n) rest
                ltac:(split; [lia | apply enough_fuel; lia])) as (d & Hd & R).
    rewrite R, read_digits_stop by assumption.
    destruct (Z.eqb_spec (0 + d) 0); [lia|]. f_equal; lia.
  - rewrite dec_digits_app, append_nil.
    destruct (dec_digits_head (Z.to_nat (Z.log2 n)) n rest) as (v & s & Hv & E).
    pose proof (parseInt_digits v s Hv) as [P _]. rewrite E, P, <- E.
    destruct (read_digits_dec_digits (Z.to_nat (Z.log2 n)) n rest
                ltac:(split; [lia | apply enough_fuel; lia])) as (d & Hd & R).
    rewrite R, read_digits_stop by assumption.
    destruct (Z.eqb_spec (0 + d) 0); [lia|]. f_equal; lia.
Qed.

Lemma append_empty (s : string) : s ++ "" = s.
Proof. induction s as [|c s IH]; [reflexivity|]. now rewrite append_cons, IH. Qed.

Lemma Z_to_string_inj a b : Z_to_string a = Z_to_string b -> a = b.
Proof.
  intros H. apply (f_equal (fun s => parseInt_mathInt (s ++ "") 10)) in H.
  rewrite !parseInt_Z_to_string in H by reflexivity. now injection H.
Qed.

(** X11.  The id of a reading stored locally is the decimal rendering
    of the [Date.now()] reading and reads back as that number, exactly
    below 2^53 as every clock reading is; so two such readings have the
    same id exactly when their creates read the same millisecond,
    whatever their values: ids separate readings only down to the
    millisecond. *)
Theorem local_id_same_millisecond env1 w1 c1 f1 env2 w2 c2 f2 :
  parseInt_mathInt (Reading.id (make_entry env1 w1 c1 f1)) 10 = Some (clock_now env1)
  /\ (Z.abs (clock_now env1) < 2 ^ 53 ->
      parseInt (Reading.id (make_entry env1 w1 c1 f1)) 10 = Some (Finite (clock_now env1)))
  /\ (Reading.id (make_entry env1 w1 c1 f1) = Reading.id (make_entry env2 w2 c2 f2)
      <-> clock_now env1 = clock_now env2).
Proof.
  unfold make_entry. cbn [Reading.id].
  assert (E : parseInt_mathInt (Z_to_string (clock_now env1)) 10 = Some (clock_now env1)).
  { rewrite <- (append_empty (Z_to_string (clock_now env1))).
    now apply parseInt_Z_to_string. }
  split; [exact E|]. unfold parseInt. rewrite E. split.
  - intros H. now rewrite Number_of_integer_exact.
  - split; [apply Z_to_string_inj | now intros ->].
Qed.

(** X12.  A limit written as a decimal integer below 2^53 in absolute
    value is read as that integer, with anything after the digits
    ignored ([25], [3.9], [7px]): the list handler's limit for the
    decimal rendering of [n] followed by text that does not start with
    a digit is [n], and 10 when [n] is zero.  A longer integer, of up
    to 20 digits, is read as the Number nearest to it. *)
Theorem limit_reads_decimal n rest :
  starts_without_digit rest = true ->
  (Z.abs n < 10 ^ 20 ->
   limit_of (QStr (Z_to_string n ++ rest))
   = Normal (or_default (Some (Number_of_integer n)) 10))
  /\ (Z.abs n < 2 ^ 53 ->
      limit_of (QStr (Z_to_string n ++ rest)) = Normal (Finite (if n =? 0 then 10 else n))).
Proof.
  intros H. unfold limit_of, qs_ToString. cbn [qs_raises_TypeError qs_text].
  unfold parseInt. rewrite parseInt_Z_to_string by exact H.
  split; [reflexivity|]. intros B. rewrite Number_of_integer_exact by exact B.
  cbn [or_default]. now destruct (n =? 0).
Qed.

Lemma limit_reads_decimal_witness :
  limit_of (QStr "25") = Normal (Finite 25)
  /\ limit_of (QStr "3.9") = Normal (Finite 3)
  /\ limit_of (QStr "-7px") = Normal (Finite (-7))
  /\ limit_of (QStr "0") = Normal (Finite 10)
  /\ limit_of (QStr "9007199254740993") = Normal (Finite 9007199254740992).
Proof.
  split; [|split; [|split; [|split]]].
  - exact (proj2 (limit_reads_decimal 25 "" eq_refl) eq_refl).
  - exact (proj2 (limit_reads_decimal 3 ".9" eq_refl) eq_refl).
  - exact (proj2 (limit_reads_decimal (-7) "px" eq_refl) eq_refl).
  - exact (proj2 (limit_reads_decimal 0 "" eq_refl) eq_refl).
  - exact (proj1 (limit_reads_decimal 9007199254740993 "" eq_refl) eq_refl).
Defined.

(** ** The date pattern in general *)

Lemma string_length_append (a b : string) :
  String.length (a ++ b) = (String.length a + String.length b)%nat.
Proof. induction a as [|c a IH]; [reflexivity|]. rewrite append_cons. cbn. now rewrite IH. Qed.

Lemma take_digits_sound s ds r : take_digits s = (ds, r) -> s = ds ++ r.
Proof.
  revert ds r. induction s as [|c s IH]; intros ds r H; cbn [take_digits] in H.
  - now injection H as <- <-.
  - destruct (is_digit c).
    + destruct (take_digits s) as [ds' r'] eqn:E. injection H as <- <-.
      rewrite append_cons. f_equal. now apply IH.
    + now injection H as <- <-.
Qed.

Lemma expect_slash_sound s r : expect_slash s = Some r -> s = String "/" r.
Proof.
  destruct s as [|c s]; [discriminate|]. cbn [expect_slash].
  destruct c as [[] [] [] [] [] [] [] []]; try discriminate.
  now intros [= ->].
Qed.

Lemma match_date_at_sound s g1 g2 g3 rest :
  match_date_at s = Some (g1, g2, g3, rest) ->
  s = g1 ++ "/" ++ g2 ++ "/" ++ g3 ++ rest.
Proof.
  unfold match_date_at. intros H.
  destruct (take_digits s) as [a r1] eqn:E1. destruct (a =? "")%string; [discriminate|].
  destruct (expect_slash r1) as [r2|] eqn:S1; [|discriminate].
  destruct (take_digits r2) as [b r3] eqn:E2. destruct (b =? "")%string; [discriminate|].
  destruct (expect_slash r3) as [r4|] eqn:S2; [|discriminate].
  destruct (take_digits r4) as [c r5] eqn:E3. destruct (c =? "")%string; [discriminate|].
  injection H as <- <- <- <-.
  apply take_digits_sound in E1, E2, E3. apply expect_slash_sound in S1, S2.
  subst. now rewrite ?append_cons, ?append_nil.
Qed.

Lemma no_slash_append a b : no_slash (a ++ b) = no_slash a && no_slash b.
Proof.
  induction a as [|c a IH]; [reflexivity|].
  rewrite append_cons. cbn [no_slash]. now rewrite IH, andb_assoc.
Qed.

(** X13.  The date rewrite only moves text around: for every string the
    result of [replace(/(\d+)\/(\d+)\/(\d+)/, '$3-$1-$2')] has the length
    of the string, and a string without a slash is returned as it is. *)
Theorem replace_date_keeps_length s :
  String.length (replace_date s) = String.length s
  /\ (no_slash s = true -> replace_date s = s).
Proof.
  induction s as [|c s [IHl IHs]].
  - split; reflexivity.
  - cbn [replace_date].
    destruct (match_date_at (String c s)) as [[[[g1 g2] g3] rest]|] eqn:M.
    + apply match_date_at_sound in M. split.
      * rewrite M, !string_length_append. cbn [String.length]. lia.
      * intros N. rewrite M in N. rewrite !no_slash_append in N.
        cbn in N. rewrite andb_false_r in N. discriminate.
    + split.
      * cbn [String.length]. now rewrite IHl.
      * cbn [no_slash]. intros N. apply andb_prop in N as [_ N]. now rewrite IHs.
Qed.

(** ** Numeric strings *)

Lemma is_digit_not_whitespace c : is_digit c = true -> is_whitespace c = false.
Proof.
  unfold is_digit, is_whitespace. intros H. apply andb_prop in H as [H1 H2].
  apply Z.leb_le in H1, H2.
  destruct (Z.leb_spec 9 (code c)), (Z.leb_spec (code c) 13),
    (Z.eqb_spec (code c) 32), (Z.eqb_spec (code c) 160); cbn; try reflexivity; lia.
Qed.

Lemma trim_end_digits s : all_digits s = true -> trim_end s = s.
Proof.
  induction s as [|c s IH]; [reflexivity|]. cbn [all_digits trim_end].
  intros H. apply andb_prop in H as [Hc Hs]. rewrite (IH Hs).
  destruct s; [|reflexivity]. now rewrite (is_digit_not_whitespace c Hc).
Qed.

Lemma all_digits_dec_digits fuel n acc :
  all_digits acc = true -> all_digits (dec_digits fuel n acc) = true.
Proof.
  revert n acc. induction fuel as [|fuel IH]; intros n acc H; [assumption|].
  cbn [dec_digits].
  assert (H' : all_digits (String (digit_char (n mod 10)) acc) = true)
    by (cbn [all_digits]; now rewrite is_digit_mod10).
  destruct (_ =? _); [assumption|]. now apply IH.
Qed.

Lemma read_digits_radix_0 s a c : read_digits 0 s a c = (a, c, s).
Proof.
  destruct s as [|x s]; [reflexivity|]. cbn [read_digits].
  replace (digit_value 0 x) with (@None Z); [reflexivity|].
  unfold digit_value.
  repeat match goal with |- context [if ?b then _ else _] => destruct b eqn:? end;
    try reflexivity; lia.
Qed.

Lemma read_non_decimal_digits s : all_digits s = true -> read_non_decimal s = None.
Proof.
  destruct s as [|c [|p r]]; intros H.
  - reflexivity.
  - destruct c as [[] [] [] [] [] [] [] []]; reflexivity.
  - cbn [all_digits] in H. apply andb_prop in H as [_ H]. apply andb_prop in H as [Hp _].
    unfold is_digit in Hp. apply andb_prop in Hp as [H1 H2]. apply Z.leb_le in H1, H2.
    destruct c as [[] [] [] [] [] [] [] []]; try reflexivity.
    cbn [read_non_decimal].
    destruct (Z.eqb_spec (code p) 120), (Z.eqb_spec (code p) 88),
      (Z.eqb_spec (code p) 111), (Z.eqb_spec (code p) 79),
      (Z.eqb_spec (code p) 98), (Z.eqb_spec (code p) 66); try lia.
    cbn [orb]. rewrite read_digits_radix_0. destruct r; reflexivity.
Qed.

Lemma read_unsigned_decimal_digits s n d :
  0 < d -> read_digits 10 s 0 0 = (n, d, "") -> read_unsigned_decimal s = Some (n, 0).
Proof.
  intros Hd E. unfold read_unsigned_decimal. rewrite E.
  destruct (Z.eqb_spec d 0); [lia|]. reflexivity.
Qed.

(** Evaluates the digit character of a literal digit, in goal and
    hypotheses. *)
Ltac eval_digit :=
  match goal with
  | |- context [digit_char ?k] =>
      let c := eval vm_compute in (digit_char k) in
      change (digit_char k) with c in *
  end.

Lemma trim_end_cons c t :
  trim_end t = t -> t <> "" -> trim_end (String c t) = String c t.
Proof.
  intros E N. cbn [trim_end]. rewrite E. destruct t; [contradiction|reflexivity].
Qed.

Lemma StringToNumber_digits v s n d :
  0 <= v <= 9 -> all_digits s = true -> 0 < d ->
  read_digits 10 (String (digit_char v) s) 0 0 = (n, d, "") ->
  StringToNumber (String (digit_char v) s) = round_decimal false n 0
  /\ StringToNumber (String "-" (String (digit_char v) s)) = round_decimal true n 0.
Proof.
  intros Hv Hs Hd E.
  assert (Ht : all_digits (String (digit_char v) s) = true)
    by (cbn [all_digits]; now rewrite is_digit_digit_char).
  pose proof (read_unsigned_decimal_digits _ n d Hd E) as U.
  pose proof (read_non_decimal_digits _ Ht) as ND.
  pose proof (trim_end_digits _ Ht) as TE.
  pose proof (trim_end_cons "-" _ TE ltac:(discriminate)) as TM.
  pose proof (is_digit_not_whitespace _ (is_digit_digit_char v Hv)) as W.
  unfold StringToNumber. cbn [trim_start]. rewrite W.
  change (is_whitespace "-") with false. cbv iota.
  rewrite TE, TM, ND.
  change (read_non_decimal (String "-" (String (digit_char v) s))) with (@None Z).
  change (String (digit_char v) s =? "")%string with false.
  change (String "-" (String (digit_char v) s) =? "")%string with false.
  cbv iota.
  assert (Ev : v = 0 \/ v = 1 \/ v = 2 \/ v = 3 \/ v = 4 \/ v = 5 \/ v = 6 \/ v = 7
               \/ v = 8 \/ v = 9) by lia.
  clear - U Ev.
  repeat (destruct Ev as [-> | Ev];
          [split; eval_digit; cbn -[read_unsigned_decimal round_decimal];
           rewrite U; reflexivity|]).
  subst v. split; eval_digit; cbn -[read_unsigned_decimal round_decimal];
    rewrite U; reflexivity.
Qed.

Lemma read_digits_nil R a c : read_digits R "" a c = (a, c, "").
Proof. reflexivity. Qed.

(** X14.  A field sent as the decimal string of an integer is coerced by
    [Number] to the Number that rounding the integer itself gives (to
    nearest, ties to even), negative integers included: the digits are
    read in full and the sign is kept. *)
Theorem Number_of_integer_string n :
  Number (VStr (Z_to_string n)) = Normal (binary_normalize 53 1024 n 0 false).
Proof.
  unfold Number. cbn [raises_TypeError]. f_equal. unfold Z_to_string.
  destruct (Z.ltb_spec n 0) as [Hneg|Hpos].
  - destruct (dec_digits_head (Z.to_nat (Z.log2 (- n))) (- n) "") as (v & s & Hv & E).
    destruct (read_digits_dec_digits (Z.to_nat (Z.log2 (- n))) (- n) ""
                ltac:(split; [lia | apply enough_fuel; lia])) as (d & Hd & R).
    pose proof (all_digits_dec_digits (S (Z.to_nat (Z.log2 (- n)))) (- n) "" eq_refl) as A.
    specialize (R 0 0). rewrite E in R, A |- *.
    cbn [all_digits] in A. apply andb_prop in A as [_ A].
    rewrite read_digits_nil in R.
    destruct (StringToNumber_digits v s (0 * 10 ^ d + - n) (0 + d) Hv A ltac:(lia) R)
      as [_ ->].
    unfold round_decimal, round_binary.
    destruct (Z.eqb_spec (0 * 10 ^ d + - n) 0); [lia|].
    change (0 <=? 0) with true. cbv iota.
    replace (- ((0 * 10 ^ d + - n) * 10 ^ 0)) with n by lia.
    destruct n; try lia. reflexivity.
  - destruct (dec_digits_head (Z.to_nat (Z.log2 n)) n "") as (v & s & Hv & E).
    destruct (read_digits_dec_digits (Z.to_nat (Z.log2 n)) n ""
                ltac:(split; [lia | apply enough_fuel; lia])) as (d & Hd & R).
    pose proof (all_digits_dec_digits (S (Z.to_nat (Z.log2 n))) n "" eq_refl) as A.
    specialize (R 0 0). rewrite E in R, A |- *.
    cbn [all_digits] in A. apply andb_prop in A as [_ A].
    rewrite read_digits_nil in R.
    destruct (StringToNumber_digits v s (0 * 10 ^ d + n) (0 + d) Hv A ltac:(lia) R)
      as [-> _].
    unfold round_decimal, round_binary.
    destruct (Z.eqb_spec (0 * 10 ^ d + n) 0) as [Hz|Hz].
    + replace n with 0 by lia. reflexivity.
    + change (0 <=? 0) with true. cbv iota. f_equal. lia.
Qed.

(** ** The two servers' list limit *)

Lemma strip_prefix_only_hex S2 (neg : bool) :
  match S2 with
  | String "0" (String p _) => (code p =? 120) || (code p =? 88)
  | _ => false
  end = false ->
  (let (R, S) :=
     match S2 with
     | String "0" (String p r) =>
         if true && ((code p =? 120) || (code p =? 88)) then (16, r) else (10, S2)
     | _ => (10, S2)
     end in
   let '(v, n, _) := read_digits R S 0 0 in
   if n =? 0 then None else Some (if neg then - v else v))
  = (let (R, S) :=
       match S2 with
       | String "0" (String p r) =>
           if false && ((code p =? 120) || (code p =? 88)) then (16, r) else (10, S2)
       | _ => (10, S2)
       end in
     let '(v, n, _) := read_digits R S 0 0 in
     if n =? 0 then None else Some (if neg then - v else v)).
Proof.
  destruct S2 as [|c2 [|p r]]; try reflexivity.
  destruct c2 as [[] [] [] [] [] [] [] []]; try reflexivity.
  intros H. cbn [andb]. now rewrite H.
Qed.

Lemma hex_prefix_reads_zero S2 (neg : bool) :
  match S2 with
  | String "0" (String p _) => (code p =? 120) || (code p =? 88)
  | _ => false
  end = true ->
  (let (R, S) :=
     match S2 with
     | String "0" (String p r) =>
         if false && ((code p =? 120) || (code p =? 88)) then (16, r) else (10, S2)
     | _ => (10, S2)
     end in
   let '(v, n, _) := read_digits R S 0 0 in
   if n =? 0 then None else Some (if neg then - v else v))
  = Some 0.
Proof.
  destruct S2 as [|c2 [|p r]]; try discriminate.
  - destruct c2 as [[] [] [] [] [] [] [] []]; discriminate.
  - destruct c2 as [[] [] [] [] [] [] [] []]; try discriminate.
    intros H. cbn [andb]. cbv iota. cbn [read_digits].
    change (digit_value 10 "0") with (Some 0).
    cbv iota.
    replace (digit_value 10 p) with (@None Z).
    + destruct neg; reflexivity.
    + symmetry. apply digit_value_not_digit. unfold is_digit.
      apply orb_prop in H as [H|H]; apply Z.eqb_eq in H; rewrite H; reflexivity.
Qed.

Lemma sign_split S :
  exists neg S2,
    match S with
    | String "-" r => (true, r)
    | String "+" r => (false, r)
    | _ => (false, S)
    end = (neg, S2)
    /\ match S with
       | String "-" r => r
       | String "+" r => r
       | _ => S
       end = S2.
Proof.
  destruct S as [|c r]; [exists false, ""; split; reflexivity|].
  destruct c as [[] [] [] [] [] [] [] []]; do 2 eexists; split; reflexivity.
Qed.

Lemma parseInt_mathInt_radix s :
  (has_hex_prefix s = false -> parseInt_mathInt s 0 = parseInt_mathInt s 10)
  /\ (has_hex_prefix s = true -> parseInt_mathInt s 10 = Some 0).
Proof.
  unfold has_hex_prefix, parseInt_mathInt.
  destruct (sign_split (trim_start s)) as (neg & S2 & E1 & E2).
  rewrite E1, E2. split.
  - exact (strip_prefix_only_hex S2 neg).
  - exact (hex_prefix_reads_zero S2 neg).
Qed.

Lemma parseInt_radix s :
  (has_hex_prefix s = false -> parseInt s 0 = parseInt s 10)
  /\ (has_hex_prefix s = true -> parseInt s 10 = Some (Finite 0)).
Proof.
  unfold parseInt. destruct (parseInt_mathInt_radix s) as [Hsame Hhex]. split.
  - intros H. now rewrite (Hsame H).
  - intros H. now rewrite (Hhex H).
Qed.

(** X15.  With the connection not ready, the MongoDB-backed server does
    what the memory-only [server.js] does.  The latest-reading handlers
    answer alike.  A create whose fields are present and convertible is
    answered with the same status and the same stamped reading and
    leaves the same store (only the message text differs); one with a
    field missing is answered alike; and where a conversion throws, both
    handlers throw and leave the store alone.  The list handlers throw
    alike when the limit cannot be converted, and otherwise answer alike
    unless the limit starts, after white space and sign, with [0x] or
    [0X]; such a limit is read as hexadecimal by [server.js], which
    passes no radix, and as the integer 0, hence as the default 10, by
    the radix-10 handler. *)
Theorem servers_agree_offline env body q st :
  isDbConnected env = false ->
  get_sensor_data_latest env st = ServerJs.get_sensor_data_latest st
  /\ snd (post_sensor_data env body st) = snd (ServerJs.post_sensor_data env body st)
  /\ (fields_present body = false ->
      post_sensor_data env body st = ServerJs.post_sensor_data env body st)
  /\ (forall entry,
        fields_present body = true -> entry_of env body = Some entry ->
        exists st',
          post_sensor_data env body st
          = (Normal {| status := 200;
                       json := JStored true "Data stored locally (fallback)" entry |}, st')
          /\ ServerJs.post_sensor_data env body st
             = (Normal {| status := 200;
                          json := JStored true "Data stored successfully" entry |}, st'))
  /\ (fields_present body = true -> conversion_throws body = true ->
      post_sensor_data env body st = (Throw "TypeError", st)
      /\ ServerJs.post_sensor_data env body st = (Throw "TypeError", st))
  /\ (qs_raises_TypeError q = true ->
      get_sensor_data env q st = (Throw "TypeError", st)
      /\ ServerJs.get_sensor_data q st = (Throw "TypeError", st))
  /\ (qs_raises_TypeError q = false -> has_hex_prefix (qs_text q) = false ->
      get_sensor_data env q st = ServerJs.get_sensor_data q st
      /\ exists data,
           get_sensor_data env q st
           = (Normal {| status := 200; json := JList true data |}, st))
  /\ (qs_raises_TypeError q = false -> has_hex_prefix (qs_text q) = true ->
      limit_of q = Normal (Finite 10)).
Proof.
  intros H. pose proof (durable_answers_false env (or_introl H)) as D.
  destruct (parseInt_radix (qs_text q)) as [Hsame Hhex].
  split; [now apply ServerJs_latest_agrees|].
  split; [now apply ServerJs_post_agrees|].
  split; [intros P; apply ServerJs_post_agrees; [assumption|now left]|].
  split; [|split; [|split; [|split]]].
  - intros entry P E. eexists. split.
    + now apply post_fallback.
    + now apply ServerJs_post_stored.
  - intros P T. split; [now apply post_throws|now apply ServerJs_post_throws].
  - intros R. destruct (limit_of_completes q) as [(_ & L & L')|(R' & _)]; [|congruence].
    split; [now apply get_throws|now apply ServerJs_get_throws].
  - intros R N. destruct (limit_of_completes q) as [(R' & _)|(_ & L & L')]; [congruence|].
    split.
    + apply ServerJs_get_agrees; [assumption|]. now rewrite L, L', (Hsame N).
    + eexists. exact (get_fallback env q st _ L D).
  - intros R Y. destruct (limit_of_completes q) as [(R' & _)|(_ & L & _)]; [congruence|].
    now rewrite L, (Hhex Y).
Qed.

Lemma servers_agree_offline_witness :
  limit_of (QStr " 0x10") = Normal (Finite 10)
  /\ ServerJs.limit_of (QStr " 0x10") = Normal (Finite 16)
  /\ get_sensor_data (offline_env sample_instant) (QStr "16")
       {| sensorData := sample_entries 3; collection := [] |}
     = ServerJs.get_sensor_data (QStr "16")
         {| sensorData := sample_entries 3; collection := [] |}.
Proof.
  destruct (servers_agree_offline (offline_env sample_instant) sample_body (QStr " 0x10")
              initial_store eq_refl) as (_ & _ & _ & _ & _ & _ & _ & Hhex).
  destruct (servers_agree_offline (offline_env sample_instant) sample_body (QStr "16")
              {| sensorData := sample_entries 3; collection := [] |} eq_refl)
    as (_ & _ & _ & _ & _ & _ & Hsame & _).
  split; [exact (Hhex eq_refl eq_refl)|]. split; [reflexivity|].
  exact (proj1 (Hsame eq_refl eq_refl)).
Defined.
